(** * Retrieval backend of minimalllmdemo: embedding, vector store, search

    A shallow embedding of [src/database_operations.py], the retrieval part
    of [src/main.py] and [src/config.py], with the properties of the
    retrieval subsystem stated and proved (or refuted) over it.

    Layout:
    - Python values, strings and exceptions as the code uses them;
    - the state of the outside world (the Milvus server reached through
      pymilvus, the log of requests sent to the embedding API) and the
      state-and-exception monad the program runs in;
    - [Module Milvus]: the pymilvus calls the program makes;
    - [Section Program]: the functions of the repository, in source order;
    - the predicates the statements use, and concrete environments and
      worlds for the examples;
    - the message handler of [main.py] ([webhook],
      [get_chat_completion_response], [send_line_reply]);
    - the theorems: creation of the collection, insertion, search, the
      embedding call, ingestion and reset, the query path, examples;
    - further properties: the database removed and created again,
      ingestion row by row, reset, initialization and start, what a search
      returns, trimming and lower case, preprocessing, the message
      handler. *)

From stdpp Require Import gmap strings list fin_maps sorting.
From Stdlib Require Import ZArith Ascii.

Local Open Scope string_scope.
Local Open Scope Z_scope.
Local Open Scope list_scope.
Set Warnings "-register-all".

(** ** Python values

    What [response.json()] can return and what the program passes around
    without looking at its type.  Numbers: the service's floats are read as
    integers (a fixed-point reading); the properties below only use the
    length of a vector and the order of distances. *)
Inductive pyval : Type :=
| PNone
| PBool (b : bool)
| PNum (z : Z)
| PStr (s : string)
| PList (l : list pyval)
| PDict (d : list (string * pyval)).

(** Exceptions.  The first group is what the HTTP calls of the program can
    raise inside its [try] blocks; [MilvusException] is the family raised by
    pymilvus, with the reason the server or the client gives. *)
Inductive milvus_error : Type :=
| Unavailable           (* connection or RPC failure *)
| ConnectionNotExist    (* no connection was opened under the alias *)
| DatabaseNotFound
| DatabaseAlreadyExists
| DatabaseNotEmpty
| CollectionNotFound
| SchemaMismatch        (* a row or a query vector does not fit the schema *)
| IndexNotFound         (* load without an index *)
| CollectionNotLoaded   (* search before load *)
| ParamError.           (* limit out of range *)

Inductive exn : Type :=
| RequestException      (* requests.post could not reach the service *)
| HTTPError             (* raise_for_status on a 4xx/5xx answer *)
| JSONDecodeError       (* response.json() on a body that is not JSON *)
| KeyError
| IndexError
| TypeError
| MilvusException (e : milvus_error).

Inductive result (A : Type) : Type :=
| Ok (a : A)
| Raise (e : exn).
Arguments Ok {A} a.
Arguments Raise {A} e.

(** *** Subscripting, as [result['data'][0]['embedding']] needs it *)

Fixpoint dict_get (d : list (string * pyval)) (k : string) : option pyval :=
  match d with
  | [] => None
  | (k', v) :: d' => if decide (k' = k) then Some v else dict_get d' k
  end.

(** [v[k]] for a string key. *)
Definition getitem_str (v : pyval) (k : string) : result pyval :=
  match v with
  | PDict d => match dict_get d k with Some x => Ok x | None => Raise KeyError end
  | _ => Raise TypeError
  end.

(** [v[0]]. *)
Definition getitem_0 (v : pyval) : result pyval :=
  match v with
  | PList (x :: _) => Ok x
  | PList [] => Raise IndexError
  | PStr (String c _) => Ok (PStr (String c ""))   (* the first character *)
  | PStr "" => Raise IndexError
  | PDict _ => Raise KeyError        (* the model's dicts have string keys only *)
  | _ => Raise TypeError
  end.

(** A Python value that is a list of numbers, read as a vector. *)
Fixpoint as_numbers (l : list pyval) : option (list Z) :=
  match l with
  | [] => Some []
  | PNum z :: l' => match as_numbers l' with Some zs => Some (z :: zs) | None => None end
  | _ => None
  end.

Definition as_vector (v : pyval) : option (list Z) :=
  match v with
  | PList l => as_numbers l
  | _ => None
  end.

(** ** Python strings

    Strings are byte strings (UTF-8).  [strip] and [lower] are given on the
    ASCII range; bytes above 127 are left alone, which is what Python does
    for text whose non-ASCII characters are neither cased nor white space
    (Thai, the language of the corpus). *)
Definition py_isspace (c : ascii) : bool :=
  let n := nat_of_ascii c in
  ((9 <=? n)%nat && (n <=? 13)%nat) || ((28 <=? n)%nat && (n <=? 32)%nat).

Fixpoint py_lstrip (s : string) : string :=
  match s with
  | String c s' => if py_isspace c then py_lstrip s' else s
  | EmptyString => EmptyString
  end.

Fixpoint py_rstrip (s : string) : string :=
  match s with
  | String c s' =>
      match py_rstrip s' with
      | EmptyString => if py_isspace c then EmptyString else String c EmptyString
      | r => String c r
      end
  | EmptyString => EmptyString
  end.

Definition py_strip (s : string) : string := py_rstrip (py_lstrip s).

Definition py_lower_char (c : ascii) : ascii :=
  let n := nat_of_ascii c in
  if ((65 <=? n)%nat && (n <=? 90)%nat) then ascii_of_nat (n + 32) else c.

Fixpoint py_lower (s : string) : string :=
  match s with
  | String c s' => String (py_lower_char c) (py_lower s')
  | EmptyString => EmptyString
  end.

(** [s.isascii()]: every byte is below 128.  On such a text [py_strip] and
    [py_lower] are exactly [str.strip] and [str.lower]. *)
Fixpoint py_isascii (s : string) : bool :=
  match s with
  | String c s' => (nat_of_ascii c <? 128)%nat && py_isascii s'
  | EmptyString => true
  end.

(** [sep.join(l)]. *)
Definition py_join (sep : string) (l : list string) : string := String.concat sep l.

(** ** The outside world *)

(** A stored row: the primary key the store assigned, the text and the
    vector. *)
Record Document : Type := mkDocument {
  doc_id : Z;
  doc_text : string;
  doc_embedding : list Z
}.

(** A collection of the store: the schema fields the program sets
    ([dim] of the vector field, [max_length] of the text field), the rows,
    whether an index exists and whether the collection is loaded. *)
Record Collection : Type := mkCollection {
  coll_dim : nat;
  coll_max_length : nat;
  coll_rows : list Document;
  coll_indexed : bool;
  coll_loaded : bool
}.

(** The world: the Milvus server ([databases], by name, each a map from
    collection names to collections; [next_id], the source of automatic
    primary keys), whether it can be reached, the database the connection
    of alias "default" is bound to, and the requests sent so far to the
    embedding API (text and model, oldest first). *)
Record World : Type := mkWorld {
  reachable : bool;
  databases : gmap string (gmap string Collection);
  conn_db : option string;
  next_id : Z;
  embedding_requests : list (string * string)
}.

Definition set_databases (dbs : gmap string (gmap string Collection)) (w : World) : World :=
  mkWorld (reachable w) dbs (conn_db w) (next_id w) (embedding_requests w).
Definition set_conn_db (c : option string) (w : World) : World :=
  mkWorld (reachable w) (databases w) c (next_id w) (embedding_requests w).
Definition set_next_id (n : Z) (w : World) : World :=
  mkWorld (reachable w) (databases w) (conn_db w) n (embedding_requests w).
Definition log_request (r : string * string) (w : World) : World :=
  mkWorld (reachable w) (databases w) (conn_db w) (next_id w) (embedding_requests w ++ [r]).

(** ** State and exceptions

    A computation runs in a world and gives a value or raises, and the
    world it leaves behind either way (what was done before an exception
    stays done). *)
Definition M (A : Type) : Type := World -> result A * World.

Definition ret {A} (a : A) : M A := fun w => (Ok a, w).
Definition raise {A} (e : exn) : M A := fun w => (Raise e, w).
Definition bind {A B} (c : M A) (k : A -> M B) : M B :=
  fun w => match c w with
           | (Ok a, w') => k a w'
           | (Raise e, w') => (Raise e, w')
           end.

Notation "'let*' x ':=' c 'in' k" := (bind c (fun x => k))
  (at level 10, x name, c at level 100, k at level 200).
Notation "c ';;' k" := (bind c (fun _ => k))
  (at level 100, k at level 200, right associativity).

(** [for x in l: body x]. *)
Fixpoint for_each {A} (l : list A) (body : A -> M unit) : M unit :=
  match l with
  | [] => ret tt
  | x :: l' => body x ;; for_each l' body
  end.

(** ** The vector store

    The calls of pymilvus the program makes, read on the world above: the
    store is a collaborator outside the repository, and these definitions
    fix what the program relies on.  There is one connection, of alias
    "default"; it is bound to a database when it is opened
    ([connections.connect], with [db_name] or, without it, to the database
    "default") and stays bound to it until it is opened again.  A collection
    object is a name bound to the connection; every call on it, and every
    call of [utility], is resolved in the database the connection is bound
    to at that moment. *)
Module Milvus.

(** Every call is a round trip to the server. *)
Definition rpc {A} (c : M A) : M A :=
  fun w => if reachable w then c w else (Raise (MilvusException Unavailable), w).

(** [connections.connect(host, port, db_name=...)]; without [db_name] the
    connection is bound to the database "default". *)
Definition connect (db_name : string) : M unit :=
  rpc (fun w =>
    match databases w !! db_name with
    | Some _ => (Ok tt, set_conn_db (Some db_name) w)
    | None => (Raise (MilvusException DatabaseNotFound), w)
    end).

Definition connected : M unit :=
  rpc (fun w =>
    match conn_db w with
    | Some _ => (Ok tt, w)
    | None => (Raise (MilvusException ConnectionNotExist), w)
    end).

(** The database the connection is bound to, with its collections. *)
Definition using_db : M (string * gmap string Collection) :=
  rpc (fun w =>
    match conn_db w with
    | None => (Raise (MilvusException ConnectionNotExist), w)
    | Some d =>
        match databases w !! d with
        | Some colls => (Ok (d, colls), w)
        | None => (Raise (MilvusException DatabaseNotFound), w)
        end
    end).

(** [db.list_database()] *)
Definition list_database : M (list string) :=
  connected ;; fun w => (Ok (elements (dom (databases w))), w).

(** [db.create_database(name)]: the connection stays bound to the
    database it was bound to. *)
Definition create_database (name : string) : M unit :=
  connected ;;
  fun w =>
    match databases w !! name with
    | Some _ => (Raise (MilvusException DatabaseAlreadyExists), w)
    | None => (Ok tt, set_databases (<[name := ∅]> (databases w)) w)
    end.

(** [db.drop_database(name)]: only an empty database can be dropped, and
    never the database "default". *)
Definition drop_database (name : string) : M unit :=
  connected ;;
  fun w =>
    match databases w !! name with
    | None => (Raise (MilvusException DatabaseNotFound), w)
    | Some colls =>
        if decide (name = "default") then (Raise (MilvusException ParamError), w)
        else if decide (dom colls = ∅)
             then (Ok tt, set_databases (delete name (databases w)) w)
             else (Raise (MilvusException DatabaseNotEmpty), w)
    end.

(** [utility.has_collection(name)] *)
Definition has_collection (name : string) : M bool :=
  let* dc := using_db in
  ret (bool_decide (is_Some (dc.2 !! name))).

(** [utility.list_collections()] *)
Definition list_collections : M (list string) :=
  let* dc := using_db in
  ret (elements (dom dc.2)).

(** [utility.drop_collection(name)] *)
Definition drop_collection (name : string) : M unit :=
  let* dc := using_db in
  fun w => (Ok tt, set_databases (<[dc.1 := delete name dc.2]> (databases w)) w).

(** The collection a collection object stands for, with the database it
    is found in. *)
Definition resolve (name : string) : M (string * Collection) :=
  let* dc := using_db in
  match dc.2 !! name with
  | Some c => ret (dc.1, c)
  | None => raise (MilvusException CollectionNotFound)
  end.

Definition put (d name : string) (c : Collection) : M unit :=
  fun w =>
    (Ok tt,
     set_databases (<[d := <[name := c]> (default ∅ (databases w !! d))]> (databases w)) w).

(** [Collection(name)]: a collection object for an existing collection;
    its schema is read from the server, none is compared. *)
Definition open_collection (name : string) : M string :=
  resolve name ;; ret name.

(** [Collection(name=name, schema=schema)]: creates the collection when
    there is none of that name; an existing one is accepted only with the
    same schema. *)
Definition new_collection (name : string) (dim max_length : nat) : M string :=
  let* dc := using_db in
  match dc.2 !! name with
  | Some c =>
      if decide (coll_dim c = dim ∧ coll_max_length c = max_length)
      then ret name
      else raise (MilvusException SchemaMismatch)
  | None =>
      put dc.1 name (mkCollection dim max_length [] false false) ;; ret name
  end.

(** Modelled from the spec: [collection.insert([[text], [embedding]])] of
    pymilvus, which is not code of the repository.  The spec: "appends one
    Document; assigns id; the embedding's length MUST equal the
    collection's configured dimension, else fails with
    SchemaMismatchError".  One row is given; something that is not a list
    of numbers has no such length, and the text is held to the
    [max_length] of its field in the same way. *)
Definition insert (name : string) (text : string) (embedding : pyval) : M unit :=
  let* dc := resolve name in
  match as_vector embedding with
  | Some v =>
      if decide (length v = coll_dim dc.2 ∧ (String.length text <= coll_max_length dc.2)%nat)
      then
        fun w =>
          let c := dc.2 in
          let row := mkDocument (next_id w) text v in
          put dc.1 name
              (mkCollection (coll_dim c) (coll_max_length c) (coll_rows c ++ [row])
                            (coll_indexed c) (coll_loaded c))
              (set_next_id (next_id w + 1) w)
      else raise (MilvusException SchemaMismatch)
  | None => raise (MilvusException SchemaMismatch)
  end.

(** [collection.flush()] *)
Definition flush (name : string) : M unit :=
  resolve name ;; ret tt.

(** [collection.indexes]: the indexed fields. *)
Definition indexes (name : string) : M (list string) :=
  let* dc := resolve name in
  ret (if coll_indexed dc.2 then ["embedding"] else []).

(** The parameters of an index: [{"index_type": ..., "metric_type": ...,
    "params": {"nlist": ...}}]. *)
Record IndexParams : Type := mkIndexParams {
  index_type : string;
  index_metric_type : string;
  nlist : Z
}.

(** The parameters of a search: [{"metric_type": ..., "params": {"nprobe":
    ...}}]. *)
Record SearchParams : Type := mkSearchParams {
  metric_type : string;
  nprobe : Z
}.

(** [collection.create_index(field_name="embedding", index_params=...)].
    The collection has an index from then on; what a search returns is
    stated by the spec without regard to the kind of index (see [ranked]),
    so the parameters are not kept. *)
Definition create_index (name : string) (index_params : IndexParams) : M unit :=
  let* dc := resolve name in
  let c := dc.2 in
  put dc.1 name
      (mkCollection (coll_dim c) (coll_max_length c) (coll_rows c) true (coll_loaded c)).

(** [collection.load()]: needs an index. *)
Definition load (name : string) : M unit :=
  let* dc := resolve name in
  let c := dc.2 in
  if coll_indexed c
  then put dc.1 name
           (mkCollection (coll_dim c) (coll_max_length c) (coll_rows c) (coll_indexed c) true)
  else raise (MilvusException IndexNotFound).

(** One hit of a search. *)
Record Hit : Type := mkHit {
  hit_id : Z;
  hit_text : string;
  hit_distance : Z
}.

(** The metric "L2": the squared Euclidean distance. *)
Fixpoint l2 (u v : list Z) : Z :=
  match u, v with
  | a :: u', b :: v' => (a - b) * (a - b) + l2 u' v'
  | _, _ => 0
  end.

Definition hit_of (q : list Z) (d : Document) : Hit :=
  mkHit (doc_id d) (doc_text d) (l2 q (doc_embedding d)).

(** Modelled from the spec: the order in which pymilvus returns hits.
    The spec: "ordered by ascending distance (most similar first), ties
    broken by smaller internal id". *)
Definition hit_le (h1 h2 : Hit) : Prop :=
  hit_distance h1 < hit_distance h2 ∨
  (hit_distance h1 = hit_distance h2 ∧ hit_id h1 <= hit_id h2).

#[export] Instance hit_le_dec : RelDecision hit_le.
Proof. intros h1 h2. unfold hit_le. apply _. Defined.

(** Modelled from the spec: what a search of pymilvus gives for the query
    vector [q] over [rows].  The spec: "returns up to topK SearchResults
    ordered by ascending distance", and "returns fewer only if the
    collection holds fewer than topK documents": all the rows in the order
    [hit_le], cut at [limit].  The spec states this for the search of an
    indexed collection whatever the index: the number of lists of the index
    and the number of lists a search probes do not enter it. *)
Definition ranked (q : list Z) (limit : Z) (rows : list Document) : list Hit :=
  take (Z.to_nat limit) (merge_sort hit_le (map (hit_of q) rows)).

(** Modelled from the spec: [collection.search([query], "embedding",
    param=param, limit=limit, output_fields=["id", "text"])[0]] of pymilvus,
    the hits for the one query vector.  The spec: "topK must be a positive
    integer; embedding length must match the collection dimension else
    fails with SchemaMismatchError", and the collection must have been
    loaded. *)
Definition search (name : string) (query : pyval) (param : SearchParams) (limit : Z) :
    M (list Hit) :=
  let* dc := resolve name in
  let c := dc.2 in
  if coll_loaded c then
    match as_vector query with
    | Some q =>
        if decide (length q = coll_dim c) then
          if decide (1 <= limit <= 16384)
          then ret (ranked q limit (coll_rows c))
          else raise (MilvusException ParamError)
        else raise (MilvusException SchemaMismatch)
    | None => raise (MilvusException SchemaMismatch)
    end
  else raise (MilvusException CollectionNotLoaded).

End Milvus.

(** ** The embedding service and the text tools *)

(** What [requests.post] gives: no answer at all (the call raises), or an
    answer with its status and its body ([None] when the body is not
    JSON). *)
Inductive http_response : Type :=
| NoResponse
| Response (status : Z) (body : option pyval).

(** What the program takes from outside the files modelled here: the two
    pythainlp functions, the seed corpus of [texts.py], the embedding model
    set in [config.py] (there "text-embedding-3-large", and meant to be
    edited), and the embedding API, as the answer it gives to a text and a
    model. *)
Record Env : Type := mkEnv {
  normalize : string -> string;
  word_tokenize : string -> list string;
  initial_texts : list string;
  OPENAI_EMBEDDING_MODEL : string;
  openai_embeddings : string -> string -> http_response
}.

(** ** The program *)

Definition database_name : string := "my_database".
Definition collection_name : string := "thai_text_embeddings".

(** One entry of the list [search_similar_texts] returns: the dictionary
    with the keys "ID", "Text" and "Distance". *)
Record result_json : Type := mkResultJson {
  ID : Z;
  Text : string;
  Distance : Z
}.

(** What the [try] of [generate_embeddings_openai] does with the answer to
    its request: [raise_for_status], [response.json()], and
    [result['data'][0]['embedding']]. *)
Definition read_embedding (r : http_response) : result pyval :=
  match r with
  | NoResponse => Raise RequestException
  | Response status body =>
      if (400 <=? status) && (status <? 600) then Raise HTTPError
      else
        match body with
        | None => Raise JSONDecodeError
        | Some result =>
            match getitem_str result "data" with
            | Raise e => Raise e
            | Ok data =>
                match getitem_0 data with
                | Raise e => Raise e
                | Ok first => getitem_str first "embedding"
                end
            end
        end
  end.

(** The dimension [create_collection] derives from the model name. *)
Definition embedding_dim (model_name : string) : nat :=
  if decide (model_name = "text-embedding-3-large") then 3072%nat else 1536%nat.

Section Program.

Variable E : Env.

(** [remove_existing_database] *)
Definition remove_existing_database : M unit :=
  Milvus.connect "default" ;;
  let* dbs := Milvus.list_database in
  (if bool_decide (database_name ∈ dbs) then
     Milvus.connect database_name ;;
     let* collections := Milvus.list_collections in
     for_each collections Milvus.drop_collection ;;
     Milvus.drop_database database_name
   else ret tt) ;;
  Milvus.create_database database_name.

(** The body of the [try] of [generate_embeddings_openai]: the request
    is sent, then the answer is read by [read_embedding]. *)
Definition request_embedding (text model_name : string) : M pyval :=
  fun w =>
    (read_embedding (openai_embeddings E text model_name),
     log_request (text, model_name) w).

(** [generate_embeddings_openai]: both handlers print; the first one then
    runs off the end of the function, the second one returns [None]. *)
Definition generate_embeddings_openai (text model_name : string) : M pyval :=
  fun w =>
    match request_embedding text model_name w with
    | (Ok embeddings, w') => (Ok embeddings, w')
    | (Raise HTTPError, w') => (Ok PNone, w')
    | (Raise _, w') => (Ok PNone, w')
    end.

(** [create_collection] *)
Definition create_collection (model_name : string) : M string :=
  let embedding_dim := embedding_dim model_name in
  let* found := Milvus.has_collection collection_name in
  if found
  then Milvus.open_collection collection_name
  else Milvus.new_collection collection_name embedding_dim 1000.

(** [preprocess_text] *)
Definition preprocess_text (text : string) : string :=
  let text := normalize E text in
  let tokens := word_tokenize E text in
  let tokens := filter (fun token => py_strip token ≠ "") tokens in
  let tokens := filter (fun token => token ≠ ",") tokens in
  py_join " " tokens.

(** [insert_texts] *)
Definition insert_texts (collection : string) (text : string) (embedding : pyval) : M unit :=
  Milvus.insert collection text embedding ;;
  Milvus.flush collection.

(** [create_index] *)
Definition create_index (collection : string) : M unit :=
  let* indexes := Milvus.indexes collection in
  match indexes with
  | _ :: _ => ret tt
  | [] =>
      let index_params := Milvus.mkIndexParams "IVF_FLAT" "L2" 128 in
      Milvus.create_index collection index_params
  end.

(** [search_similar_texts] *)
Definition search_similar_texts (collection : string) (query_embedding : pyval)
    (top_k : Z) : M (list result_json) :=
  let search_params := Milvus.mkSearchParams "L2" 10 in
  Milvus.load collection ;;
  let* results := Milvus.search collection query_embedding search_params top_k in
  ret (map (fun result =>
              mkResultJson (Milvus.hit_id result) (Milvus.hit_text result)
                           (Milvus.hit_distance result))
           results).

(** The body of the loop of [setup_collection]. *)
Definition setup_item (collection : string) (text : string) : M unit :=
  let processed_text := preprocess_text text in
  let* embedding := generate_embeddings_openai text (OPENAI_EMBEDDING_MODEL E) in
  insert_texts collection processed_text embedding.

(** [setup_collection] *)
Definition setup_collection : M string :=
  let* collection := create_collection (OPENAI_EMBEDDING_MODEL E) in
  for_each (initial_texts E) (setup_item collection) ;;
  create_index collection ;;
  ret collection.

(** [initialize_database] *)
Definition initialize_database : M string :=
  Milvus.connect "default" ;;
  let* dbs := Milvus.list_database in
  if bool_decide (database_name ∈ dbs) then
    Milvus.connect database_name ;;
    let* found := Milvus.has_collection collection_name in
    if found
    then Milvus.open_collection collection_name
    else setup_collection
  else
    remove_existing_database ;;
    setup_collection.

(** [reset_database] *)
Definition reset_database : M string :=
  remove_existing_database ;;
  let* collection := setup_collection in
  ret collection.

(** The start of the program (the [__main__] block of [main.py]); its
    result is the global [collection] the webhook searches. *)
Definition main : M string :=
  reset_database ;;
  initialize_database.

(** The retrieval part of [webhook] for one message event whose text is
    [text] (lines 91 to 99 of [main.py]): the text searched for, the hits,
    and the context made of them.  [collection] is the global of that
    name; what follows in the handler (the chat completion and the reply)
    is outside this development. *)
Definition webhook_message (collection : string) (text : string)
    : M (list result_json * string) :=
  let user_input := py_lower (py_strip text) in
  let* embedding := generate_embeddings_openai user_input (OPENAI_EMBEDDING_MODEL E) in
  let* similar_texts := search_similar_texts collection embedding 4 in
  let context := py_join (String (ascii_of_nat 10) "") (map Text similar_texts) in
  ret (similar_texts, context).

End Program.

(** ** Worlds in which the store answers *)

(** The server can be reached and the connection is bound to the existing
    database [d], whose collections are [colls]. *)
Definition bound_to (w : World) (d : string) (colls : gmap string Collection) : Prop :=
  reachable w = true ∧ conn_db w = Some d ∧ databases w !! d = Some colls.

(** The rows of the collection [name] of the database the connection is
    bound to (none when there is no such collection). *)
Definition rows_of (w : World) (name : string) : list Document :=
  match conn_db w with
  | Some d =>
      match databases w !! d with
      | Some colls =>
          match colls !! name with
          | Some c => coll_rows c
          | None => []
          end
      | None => []
      end
  | None => []
  end.

(** The answer of the embedding API holds no embedding: the call fails,
    and [generate_embeddings_openai] returns [None]. *)
Definition embedding_fails (E : Env) (text : string) : Prop :=
  ∃ e, read_embedding (openai_embeddings E text (OPENAI_EMBEDDING_MODEL E)) = Raise e.

(** The text [t] of the corpus can be embedded and stored: the answer of
    the embedding API holds a vector of the dimension of the configured
    model, and the preprocessed text fits the text field. *)
Definition embeddable (E : Env) (t : string) : Prop :=
  ∃ embedding v,
    read_embedding (openai_embeddings E t (OPENAI_EMBEDDING_MODEL E)) = Ok embedding ∧
    as_vector embedding = Some v ∧
    length v = embedding_dim (OPENAI_EMBEDDING_MODEL E) ∧
    (String.length (preprocess_text E t) <= 1000)%nat.

(** The row [doc] is what ingestion stores for the text [t] of the corpus:
    the preprocessed text, with the vector the embedding API answers to [t]
    itself. *)
Definition stored_as (E : Env) (t : string) (doc : Document) : Prop :=
  doc_text doc = preprocess_text E t ∧
  ∃ embedding,
    read_embedding (openai_embeddings E t (OPENAI_EMBEDDING_MODEL E)) = Ok embedding ∧
    as_vector embedding = Some (doc_embedding doc).

(** The collection ingestion builds from nothing: the rows [docs], an
    index, not loaded. *)
Definition corpus_collection (E : Env) (docs : list Document) : Collection :=
  mkCollection (embedding_dim (OPENAI_EMBEDDING_MODEL E)) 1000 docs true false.

(** The requests ingestion sends to the embedding API: the texts of the
    corpus as they are, in order. *)
Definition corpus_requests (E : Env) : list (string * string) :=
  map (fun t => (t, OPENAI_EMBEDDING_MODEL E)) (initial_texts E).

(** ** Concrete environments and worlds, used in the examples *)

(** A tokenizer that cuts a text into its characters. *)
Fixpoint chars (s : string) : list string :=
  match s with
  | String c s' => String c "" :: chars s'
  | EmptyString => []
  end.

(** The body of an answer of the embedding API that carries the vector [v]. *)
Definition embedding_body (v : list pyval) : pyval :=
  PDict [("data", PList [PDict [("embedding", PList v)]])].

(** An embedding service: it cannot be reached for the text "down",
    answers 429 to "quota", answers "short" with a vector of one component,
    and any other text with a vector of the model's dimension whose
    components are all the length of the text. *)
Definition demo_service (text model_name : string) : http_response :=
  if decide (text = "down") then NoResponse
  else if decide (text = "quota") then Response 429 None
  else if decide (text = "short") then Response 200 (Some (embedding_body [PNum 1]))
  else Response 200 (Some (embedding_body
         (repeat (PNum (Z.of_nat (String.length text))) (embedding_dim model_name)))).

Definition E_demo : Env :=
  mkEnv (fun s => s) chars ["ab"; "c,d"] "text-embedding-3-large" demo_service.

Definition E_quota : Env :=
  mkEnv (fun s => s) chars ["ab"; "quota"; "c,d"] "text-embedding-3-large" demo_service.

(** A server with its database "default" only, and a connection to it. *)
Definition w_connected : World :=
  mkWorld true {[ "default" := ∅ ]} (Some "default") 1 [].

(** A small collection, of dimension 2; its second and third rows are at
    the same distance from the origin. *)
Definition small_collection : Collection :=
  mkCollection 2 1000
    [mkDocument 1 "a" [3; 4]; mkDocument 2 "b" [0; 1]; mkDocument 3 "c" [1; 0]]
    true false.

Definition small_database : gmap string Collection :=
  {[ collection_name := small_collection ]}.

Definition w_small : World :=
  mkWorld true {[ "default" := ∅; database_name := small_database ]}
          (Some database_name) 4 [].

(** A new server, with its database "default" only, and no connection. *)
Definition w_new : World :=
  mkWorld true {[ "default" := ∅ ]} None 1 [].

(** A server on which the database [database_name] does not exist, while
    the database "default" holds a collection [collection_name] with one
    row; no connection is open yet. *)
Definition w_stale : World :=
  mkWorld true
    {[ "default" :=
         {[ collection_name :=
              mkCollection 3072 1000 [mkDocument 1 "old" (repeat 7 3072)] true false ]} ]}
    None 2 [].

(** ** The message handler

    [webhook], [get_chat_completion_response] and [send_line_reply] of
    [main.py].  Beside the world of the retrieval functions, the handler
    has two more services outside the repository, the chat completion API
    and the reply API of the messaging channel; the requests sent to them
    are logged as the requests to the embedding API are.  The body of a
    request is what [request.get_json()] returned, a Python value; a
    dictionary is an association list with distinct keys. *)

(** [bool(v)], as [if response:] takes it. *)
Definition py_truthy (v : pyval) : bool :=
  match v with
  | PNone => false
  | PBool b => b
  | PNum z => negb (z =? 0)
  | PStr s => negb (bool_decide (s = ""))
  | PList l => match l with [] => false | _ => true end
  | PDict d => match d with [] => false | _ => true end
  end.

(** [v == s] for a string [s]. *)
Definition py_eq_str (v : pyval) (s : string) : bool :=
  match v with
  | PStr s' => bool_decide (s' = s)
  | _ => false
  end.

(** [p in s] for two strings. *)
Fixpoint is_substring (p s : string) : bool :=
  String.prefix p s ||
  match s with
  | String _ s' => is_substring p s'
  | EmptyString => false
  end.

(** [k in v] for a string [k]: a key of a dictionary, an element of a
    list, a part of a string. *)
Definition py_contains (v : pyval) (k : string) : result bool :=
  match v with
  | PDict d => Ok (bool_decide (is_Some (dict_get d k)))
  | PList l => Ok (existsb (fun x => py_eq_str x k) l)
  | PStr s => Ok (is_substring k s)
  | _ => Raise TypeError
  end.

(** What [for x in v] goes through: the elements of a list, the keys of a
    dictionary, the characters of a string. *)
Definition py_iter (v : pyval) : result (list pyval) :=
  match v with
  | PList l => Ok l
  | PDict d => Ok (map (fun kv => PStr kv.1) d)
  | PStr s => Ok (map PStr (chars s))
  | _ => Raise TypeError
  end.

(** What the [try] of [get_chat_completion_response] does with the answer
    to its request: [raise_for_status], [response.json()], and
    [result['choices'][0]['message']['content']]. *)
Definition read_chat_content (r : http_response) : result pyval :=
  match r with
  | NoResponse => Raise RequestException
  | Response status body =>
      if (400 <=? status) && (status <? 600) then Raise HTTPError
      else
        match body with
        | None => Raise JSONDecodeError
        | Some result =>
            match getitem_str result "choices" with
            | Raise e => Raise e
            | Ok choices =>
                match getitem_0 choices with
                | Raise e => Raise e
                | Ok first =>
                    match getitem_str first "message" with
                    | Raise e => Raise e
                    | Ok message => getitem_str message "content"
                    end
                end
            end
        end
  end.

(** The two services: the answer of the chat completion API to a question
    and a context (the model and the temperature are those of [config.py]),
    and the answer of the reply API to a reply token and a message. *)
Record Channels : Type := mkChannels {
  chat_completions : string -> string -> http_response;
  line_reply : pyval -> pyval -> http_response
}.

(** The handler adds [AttributeError] (a method asked of a value that has
    none of that name) to the exceptions of the retrieval functions. *)
Inductive handler_exn : Type :=
| Raised (e : exn)
| AttributeError.

Inductive hresult (A : Type) : Type :=
| HOk (a : A)
| HRaise (e : handler_exn).
Arguments HOk {A} a.
Arguments HRaise {A} e.

(** The state the handler runs in: the world, the requests sent to the
    chat completion API (question and context) and the replies posted to
    the channel (reply token and message), oldest first. *)
Record Session : Type := mkSession {
  world : World;
  chat_requests : list (string * string);
  line_posts : list (pyval * pyval)
}.

Definition H (A : Type) : Type := Session -> hresult A * Session.

Definition hret {A} (a : A) : H A := fun s => (HOk a, s).
Definition hraise {A} (e : handler_exn) : H A := fun s => (HRaise e, s).
Definition hbind {A B} (c : H A) (k : A -> H B) : H B :=
  fun s => match c s with
           | (HOk a, s') => k a s'
           | (HRaise e, s') => (HRaise e, s')
           end.

Notation "'let+' x ':=' c 'in' k" := (hbind c (fun x => k))
  (at level 10, x name, c at level 100, k at level 200).

(** A retrieval function run by the handler. *)
Definition lift {A} (c : M A) : H A :=
  fun s => match c (world s) with
           | (Ok a, w') => (HOk a, mkSession w' (chat_requests s) (line_posts s))
           | (Raise e, w') => (HRaise (Raised e), mkSession w' (chat_requests s) (line_posts s))
           end.

(** A subscript or a test evaluated by the handler. *)
Definition eval {A} (r : result A) : H A :=
  match r with
  | Ok a => hret a
  | Raise e => hraise (Raised e)
  end.

Fixpoint hfor_each {A} (l : list A) (body : A -> H unit) : H unit :=
  match l with
  | [] => hret tt
  | x :: l' => let+ _ := body x in hfor_each l' body
  end.

Definition no_context_reply : string := "No relevant context found in the database.".
Definition no_response_reply : string := "Sorry, I couldn't generate a response.".

Section Handler.

Variable E : Env.
Variable C : Channels.

(** [get_chat_completion_response]: both handlers print, and the function
    ends with [return None]. *)
Definition get_chat_completion_response (user_question context : string) : H pyval :=
  fun s =>
    let s' := mkSession (world s) (chat_requests s ++ [(user_question, context)])
                        (line_posts s) in
    match read_chat_content (chat_completions C user_question context) with
    | Ok content => (HOk content, s')
    | Raise HTTPError => (HOk PNone, s')
    | Raise _ => (HOk PNone, s')
    end.

(** [send_line_reply]: the request is not in a [try]; whatever the status
    of the answer, a line is printed and the function returns. *)
Definition send_line_reply (reply_token message : pyval) : H unit :=
  fun s =>
    let s' := mkSession (world s) (chat_requests s)
                        (line_posts s ++ [(reply_token, message)]) in
    match line_reply C reply_token message with
    | NoResponse => (HRaise (Raised RequestException), s')
    | Response _ _ => (HOk tt, s')
    end.

(** The body of the loop of [webhook] (lines 90 to 109), for one event. *)
Definition webhook_event (collection : string) (event : pyval) : H unit :=
  let+ type := eval (getitem_str event "type") in
  if py_eq_str type "message" then
    let+ message := eval (getitem_str event "message") in
    let+ text := eval (getitem_str message "text") in
    match text with
    | PStr text =>
        let user_input := py_lower (py_strip text) in
        let+ reply_token := eval (getitem_str event "replyToken") in
        let+ found := lift (webhook_message E collection text) in
        let context := found.2 in
        if bool_decide (context ≠ "") then
          let+ response := get_chat_completion_response user_input context in
          if py_truthy response
          then send_line_reply reply_token response
          else send_line_reply reply_token (PStr no_response_reply)
        else send_line_reply reply_token (PStr no_context_reply)
    | _ => hraise AttributeError
    end
  else hret tt.

(** [webhook], for the body [request.get_json()] returned; the result is
    the JSON answer and its status. *)
Definition webhook (collection : string) (body : pyval) : H (pyval * Z) :=
  let+ has_events := eval (py_contains body "events") in
  let+ _ :=
    (if has_events then
       let+ events := eval (getitem_str body "events") in
       let+ events := eval (py_iter events) in
       hfor_each events (webhook_event collection)
     else hret tt) in
  hret (PDict [("status", PStr "success")], 200).

End Handler.

(** A message event as the channel sends it: of type "message", with the
    text [text] and the reply token [token]. *)
Definition is_message_event (event : pyval) (text : string) (token : pyval) : Prop :=
  ∃ type message,
    getitem_str event "type" = Ok type ∧ py_eq_str type "message" = true ∧
    getitem_str event "message" = Ok message ∧
    getitem_str message "text" = Ok (PStr text) ∧
    getitem_str event "replyToken" = Ok token.

(** An event of another type. *)
Definition is_other_event (event : pyval) : Prop :=
  ∃ type, getitem_str event "type" = Ok type ∧ py_eq_str type "message" = false.

(** The reply token of an event, when it is a message event. *)
Definition message_tokens (event : pyval) : list pyval :=
  match getitem_str event "type" with
  | Ok type =>
      if py_eq_str type "message" then
        match getitem_str event "replyToken" with
        | Ok token => [token]
        | Raise _ => []
        end
      else []
  | Raise _ => []
  end.

(** A text message event. *)
Definition text_event (text token : string) : pyval :=
  PDict [("type", PStr "message");
         ("replyToken", PStr token);
         ("message", PDict [("type", PStr "text"); ("text", PStr text)])].

(** A sticker message event: a message without text. *)
Definition sticker_event (token : string) : pyval :=
  PDict [("type", PStr "message");
         ("replyToken", PStr token);
         ("message", PDict [("type", PStr "sticker")])].

(** An event of another type. *)
Definition follow_event (token : string) : pyval :=
  PDict [("type", PStr "follow"); ("replyToken", PStr token)].

(** A chat completion API that answers with the context it was given, and
    a reply API that answers 200. *)
Definition C_demo : Channels :=
  mkChannels
    (fun question context =>
       Response 200 (Some (PDict [("choices",
         PList [PDict [("message", PDict [("content", PStr context)])]])])))
    (fun token message => Response 200 None).

(** A world with an empty collection that has an index. *)
Definition w_empty : World :=
  mkWorld true
    {[ "default" := ∅;
       database_name := {[ collection_name := mkCollection 3072 1000 [] true false ]} ]}
    (Some database_name) 1 [].

(** A server with the two databases, both empty, and no connection. *)
Definition w_blank : World :=
  mkWorld true {[ "default" := ∅; database_name := ∅ ]} None 1 [].

(** The world after the start of the program on a new server. *)
Definition w_started : World := (main E_demo w_new).2.

(** What the search for "ab" gives in that world. *)
Definition found_ab : list result_json * string :=
  Eval vm_compute in
    match (webhook_message E_demo collection_name "ab" w_started).1 with
    | Ok found => found
    | Raise _ => ([], "")
    end.

Section StoreFacts.

Context {w : World} {d : string} {colls : gmap string Collection}.
Hypothesis Hb : bound_to w d colls.

Lemma using_db_bound : Milvus.using_db w = (Ok (d, colls), w).
Proof.
  destruct Hb as (Hr & Hc & Hd).
  unfold Milvus.using_db, Milvus.rpc. by rewrite Hr, Hc, Hd.
Qed.

Lemma resolve_bound name :
  Milvus.resolve name w =
  match colls !! name with
  | Some c => (Ok (d, c), w)
  | None => (Raise (MilvusException CollectionNotFound), w)
  end.
Proof.
  unfold Milvus.resolve, bind. rewrite using_db_bound. simpl.
  by destruct (colls !! name).
Qed.

Lemma has_collection_bound name :
  Milvus.has_collection name w = (Ok (bool_decide (is_Some (colls !! name))), w).
Proof. unfold Milvus.has_collection, bind. by rewrite using_db_bound. Qed.

Lemma put_bound name c :
  bound_to (Milvus.put d name c w).2 d (<[name := c]> colls).
Proof.
  destruct Hb as (Hr & Hc & Hd). unfold Milvus.put; simpl.
  repeat split; [done | done |]. simpl.
  rewrite lookup_insert_eq, Hd. done.
Qed.

Lemma rows_of_bound name :
  rows_of w name = match colls !! name with Some c => coll_rows c | None => [] end.
Proof. destruct Hb as (Hr & Hc & Hd). unfold rows_of. by rewrite Hc, Hd. Qed.

End StoreFacts.

(** ** Creating the collection *)

Lemma create_collection_existing model_name w d colls c :
  bound_to w d colls →
  colls !! collection_name = Some c →
  create_collection model_name w = (Ok collection_name, w).
Proof.
  intros Hb Hc. unfold create_collection, bind.
  rewrite (has_collection_bound Hb), Hc. simpl.
  unfold Milvus.open_collection, bind.
  rewrite (resolve_bound Hb), Hc. done.
Qed.

Lemma create_collection_fresh model_name w d colls :
  bound_to w d colls →
  colls !! collection_name = None →
  create_collection model_name w =
  (Ok collection_name,
   (Milvus.put d collection_name
      (mkCollection (embedding_dim model_name) 1000 [] false false) w).2).
Proof.
  intros Hb Hc. unfold create_collection, bind.
  rewrite (has_collection_bound Hb), Hc. simpl.
  unfold Milvus.new_collection, bind.
  rewrite (using_db_bound Hb). simpl. rewrite Hc. done.
Qed.

(** A successful call leaves a world in which the collection exists. *)
Lemma create_collection_ok_inv model_name w h w1 :
  create_collection model_name w = (Ok h, w1) →
  h = collection_name ∧
  ∃ d colls c, bound_to w1 d colls ∧ colls !! collection_name = Some c.
Proof.
  intros Hrun.
  assert (∃ d colls, bound_to w d colls) as (d & colls & Hb).
  { unfold create_collection, bind, Milvus.has_collection, bind,
      Milvus.using_db, Milvus.rpc in Hrun.
    destruct (reachable w) eqn:Hr; [| done].
    destruct (conn_db w) as [d|] eqn:Hc; [| done].
    destruct (databases w !! d) as [colls|] eqn:Hd; [| done].
    by exists d, colls. }
  destruct (colls !! collection_name) as [c|] eqn:Hc.
  - rewrite (create_collection_existing _ _ _ _ _ Hb Hc) in Hrun.
    injection Hrun as <- <-. split; [done |]. by exists d, colls, c.
  - rewrite (create_collection_fresh _ _ _ _ Hb Hc) in Hrun.
    injection Hrun as <- <-. split; [done |].
    eexists d, _, _. split; [apply (put_bound Hb) |].
    apply lookup_insert_eq.
Qed.

(** C4. [create_collection] is idempotent: once a call has succeeded, a
    further call, for whatever model (and so whatever requested dimension),
    returns the same collection object and leaves the whole world, the
    collection and its schema included, as it was; the collection it finds
    is returned without any comparison of its dimension with the requested
    one. *)
Theorem create_collection_idempotent model_name model_name' w h w1 :
  create_collection model_name w = (Ok h, w1) →
  create_collection model_name' w1 = (Ok h, w1) ∧
  (∀ w2 d colls c,
     bound_to w2 d colls → colls !! collection_name = Some c →
     create_collection model_name' w2 = (Ok h, w2)).
Proof.
  intros Hrun.
  destruct (create_collection_ok_inv _ _ _ _ Hrun) as (-> & d & colls & c & Hb & Hc).
  split.
  - by apply (create_collection_existing _ _ d colls c).
  - intros w2 d2 colls2 c2 Hb2 Hc2.
    by apply (create_collection_existing _ _ d2 colls2 c2).
Qed.

(** C10. In a database without the collection, [create_collection] creates
    it, empty, for every model name and without an error; its dimension is
    3072 for "text-embedding-3-large" and 1536 for every other name. *)
Theorem create_collection_dimension model_name w d colls :
  bound_to w d colls →
  colls !! collection_name = None →
  ∃ w' c,
    create_collection model_name w = (Ok collection_name, w') ∧
    databases w' !! d = Some (<[collection_name := c]> colls) ∧
    coll_rows c = [] ∧
    (model_name = "text-embedding-3-large" → coll_dim c = 3072%nat) ∧
    (model_name ≠ "text-embedding-3-large" → coll_dim c = 1536%nat).
Proof.
  intros Hb Hc.
  eexists _, (mkCollection (embedding_dim model_name) 1000 [] false false).
  split; [by apply (create_collection_fresh _ _ d colls) |].
  split; [apply (put_bound Hb) |].
  split; [done |]. simpl. unfold embedding_dim.
  split; intros Hm; case_decide; done.
Qed.

(** ** Insertion *)

(** C3. Inserting a vector whose length is not the dimension of the
    collection fails with the store's schema error, and the world, the
    collection included, is left as it was. *)
Theorem insert_texts_dimension_mismatch collection text embedding v w d colls c :
  bound_to w d colls →
  colls !! collection = Some c →
  as_vector embedding = Some v →
  length v ≠ coll_dim c →
  insert_texts collection text embedding w = (Raise (MilvusException SchemaMismatch), w).
Proof.
  intros Hb Hc Hv Hlen. unfold insert_texts, bind, Milvus.insert, bind.
  rewrite (resolve_bound Hb), Hc. simpl. rewrite Hv.
  rewrite decide_False by (intros [? _]; done). done.
Qed.

(** ** Search *)

#[local] Instance hit_le_total : Total Milvus.hit_le.
Proof. intros h1 h2. unfold Milvus.hit_le. lia. Qed.

#[local] Instance hit_le_trans : Transitive Milvus.hit_le.
Proof. intros h1 h2 h3. unfold Milvus.hit_le. lia. Qed.

Lemma StronglySorted_lookup_lt {A} (R : relation A) (l : list A) i j x y :
  StronglySorted R l →
  l !! i = Some x → l !! j = Some y → (i < j)%nat → R x y.
Proof.
  intros Hs. revert i j. induction Hs as [| a l Hs IH Hall]; intros i j Hi Hj Hlt.
  - done.
  - destruct j as [| j]; [lia |]. destruct i as [| i]; simpl in *.
    + injection Hi as <-. rewrite Forall_forall in Hall.
      apply Hall. by apply list_elem_of_lookup_2 with j.
    + apply (IH i j); [done | done | lia].
Qed.

Lemma ranked_length q limit rows :
  length (Milvus.ranked q limit rows) = (Z.to_nat limit `min` length rows)%nat.
Proof.
  unfold Milvus.ranked. rewrite length_take.
  by rewrite (Permutation_length (merge_sort_Permutation _ _)), length_map.
Qed.

Lemma ranked_sorted q limit rows : StronglySorted Milvus.hit_le (Milvus.ranked q limit rows).
Proof.
  unfold Milvus.ranked.
  set (l := merge_sort _ _).
  assert (StronglySorted Milvus.hit_le l) as Hs
    by apply (StronglySorted_merge_sort Milvus.hit_le).
  rewrite <- (take_drop (Z.to_nat limit) l) in Hs.
  by apply StronglySorted_app_1_l in Hs.
Qed.

Lemma load_bound w d colls c name :
  bound_to w d colls →
  colls !! name = Some c →
  coll_indexed c = true →
  Milvus.load name w =
  (Ok tt,
   (Milvus.put d name
      (mkCollection (coll_dim c) (coll_max_length c) (coll_rows c) (coll_indexed c) true) w).2).
Proof.
  intros Hb Hc Hi. unfold Milvus.load, bind.
  rewrite (resolve_bound Hb), Hc. simpl. by rewrite Hi.
Qed.

Lemma search_similar_texts_bound w d colls c name query q top_k :
  bound_to w d colls →
  colls !! name = Some c →
  coll_indexed c = true →
  as_vector query = Some q →
  length q = coll_dim c →
  1 <= top_k <= 16384 →
  search_similar_texts name query top_k w =
  (Ok (map (fun h => mkResultJson (Milvus.hit_id h) (Milvus.hit_text h) (Milvus.hit_distance h))
           (Milvus.ranked q top_k (coll_rows c))),
   (Milvus.put d name
      (mkCollection (coll_dim c) (coll_max_length c) (coll_rows c) (coll_indexed c) true) w).2).
Proof.
  intros Hb Hc Hi Hq Hlen Hk. unfold search_similar_texts, bind.
  rewrite (load_bound _ _ _ _ _ Hb Hc Hi).
  pose proof (put_bound Hb name
    (mkCollection (coll_dim c) (coll_max_length c) (coll_rows c) (coll_indexed c) true)) as Hb'.
  unfold Milvus.search, bind.
  rewrite (resolve_bound Hb'), lookup_insert_eq. simpl.
  rewrite Hq. rewrite decide_True by done. rewrite decide_True by done. done.
Qed.

(** A search returns only under the conditions of
    [search_similar_texts_bound]. *)
Lemma search_similar_texts_ok_inv name query top_k w rs w' :
  search_similar_texts name query top_k w = (Ok rs, w') →
  ∃ d colls c q,
    bound_to w d colls ∧ colls !! name = Some c ∧ coll_indexed c = true ∧
    as_vector query = Some q ∧ length q = coll_dim c ∧ 1 <= top_k <= 16384.
Proof.
  intros Hrun.
  assert (∃ d colls, bound_to w d colls) as (d & colls & Hb).
  { unfold search_similar_texts, bind, Milvus.load, bind, Milvus.resolve, bind,
      Milvus.using_db, Milvus.rpc in Hrun.
    destruct (reachable w) eqn:Hr; [| done].
    destruct (conn_db w) as [d|] eqn:Hc; [| done].
    destruct (databases w !! d) as [colls|] eqn:Hd; [| done].
    by exists d, colls. }
  exists d, colls.
  unfold search_similar_texts, bind at 1 in Hrun.
  unfold Milvus.load, bind in Hrun. rewrite (resolve_bound Hb) in Hrun.
  destruct (colls !! name) as [c|] eqn:Hc; [| done].
  cbn beta iota in Hrun. cbn [fst snd] in Hrun.
  destruct (coll_indexed c) eqn:Hi; [| done].
  set (c' := mkCollection _ _ _ _ _) in Hrun.
  pose proof (put_bound Hb name c') as Hb'.
  change (Milvus.put d name c' w) with (Ok tt, (Milvus.put d name c' w).2) in Hrun.
  cbn beta iota in Hrun. unfold Milvus.search, bind in Hrun.
  rewrite (resolve_bound Hb'), lookup_insert_eq in Hrun.
  cbn beta iota in Hrun. cbn [fst snd coll_loaded coll_dim c'] in Hrun.
  destruct (as_vector query) as [q|] eqn:Hq; [| done].
  destruct (decide (length q = coll_dim c)) as [Hlen |]; [| done].
  destruct (decide (1 <= top_k <= 16384)) as [Hk |]; [| done].
  by exists c, q.
Qed.

(** The results made of the hits of the store: their number and order. *)
Lemma ranked_results q top_k rows :
  let rs := map (fun h => mkResultJson (Milvus.hit_id h) (Milvus.hit_text h)
                                       (Milvus.hit_distance h))
                (Milvus.ranked q top_k rows) in
  0 <= top_k →
  Z.of_nat (length rs) <= top_k ∧
  (Z.of_nat (length rs) < top_k → Z.of_nat (length rows) < top_k) ∧
  (∀ i j r1 r2,
     rs !! i = Some r1 → rs !! j = Some r2 → (i < j)%nat →
     Distance r1 <= Distance r2 ∧ (Distance r1 = Distance r2 → ID r1 <= ID r2)) ∧
  (∀ i j r1 r2,
     rs !! i = Some r1 → rs !! j = Some r2 → Distance r1 < Distance r2 →
     (i < j)%nat).
Proof.
  intros rs Hk.
  assert (∀ i j r1 r2,
            rs !! i = Some r1 → rs !! j = Some r2 → (i < j)%nat →
            Distance r1 <= Distance r2 ∧ (Distance r1 = Distance r2 → ID r1 <= ID r2))
    as Hord.
  { intros i j r1 r2 H1 H2 Hlt. unfold rs in H1, H2.
    rewrite list_lookup_fmap in H1, H2.
    destruct (Milvus.ranked q top_k rows !! i) as [h1|] eqn:E1; [| done].
    destruct (Milvus.ranked q top_k rows !! j) as [h2|] eqn:E2; [| done].
    simpl in H1, H2. injection H1 as <-. injection H2 as <-.
    pose proof (StronglySorted_lookup_lt _ _ _ _ _ _ (ranked_sorted _ _ _) E1 E2 Hlt) as Hle.
    unfold Milvus.hit_le in Hle. simpl. lia. }
  unfold rs at 1 2. rewrite length_map, ranked_length.
  split; [lia |]. split; [lia |]. split; [exact Hord |].
  intros i j r1 r2 H1 H2 Hlt.
  destruct (decide (i < j)%nat) as [| Hge]; [done | exfalso].
  destruct (decide (i = j)) as [-> | Hne].
  - rewrite H1 in H2. injection H2 as <-. lia.
  - destruct (Hord j i r2 r1 H2 H1) as [Hle _]; lia.
Qed.

(** The number and the order of the results of any call that returns, in
    any world. *)
Lemma search_similar_texts_any_call name query top_k w rs w' :
  search_similar_texts name query top_k w = (Ok rs, w') →
  Z.of_nat (length rs) <= top_k ∧
  (Z.of_nat (length rs) < top_k → Z.of_nat (length (rows_of w name)) < top_k) ∧
  (∀ i j r1 r2,
     rs !! i = Some r1 → rs !! j = Some r2 → (i < j)%nat →
     Distance r1 <= Distance r2 ∧ (Distance r1 = Distance r2 → ID r1 <= ID r2)) ∧
  (∀ i j r1 r2,
     rs !! i = Some r1 → rs !! j = Some r2 → Distance r1 < Distance r2 →
     (i < j)%nat).
Proof.
  intros Hrun.
  destruct (search_similar_texts_ok_inv _ _ _ _ _ _ Hrun)
    as (d & colls & c & q & Hb & Hc & Hi & Hq & Hlen & Hk).
  rewrite (search_similar_texts_bound w d colls c name query q top_k Hb Hc Hi Hq Hlen Hk)
    in Hrun.
  injection Hrun as <- <-.
  rewrite (rows_of_bound Hb), Hc.
  apply ranked_results. lia.
Qed.

(** ** The embedding call *)

(** [generate_embeddings_openai] never raises: it returns what
    [read_embedding] found, or [None]. *)
Lemma generate_embeddings_openai_run E text model_name w :
  generate_embeddings_openai E text model_name w =
  (Ok (match read_embedding (openai_embeddings E text model_name) with
       | Ok embeddings => embeddings
       | Raise _ => PNone
       end),
   log_request (text, model_name) w).
Proof.
  unfold generate_embeddings_openai, request_embedding.
  destruct (read_embedding _) as [v | e]; [done |]. by destruct e.
Qed.

Lemma rows_of_log_request r w name : rows_of (log_request r w) name = rows_of w name.
Proof. done. Qed.

(** ** Ingestion *)

Lemma using_db_cases w :
  (∃ d colls, bound_to w d colls) ∨
  (∃ e, Milvus.using_db w = (Raise (MilvusException e), w)).
Proof.
  unfold Milvus.using_db, Milvus.rpc, bound_to.
  destruct (reachable w); [| right; eauto].
  destruct (conn_db w) as [d|]; [| right; eauto].
  destruct (databases w !! d) as [colls|] eqn:Hd; [| right; eauto].
  left. by exists d, colls.
Qed.

Lemma bound_to_set_next_id w d colls n :
  bound_to w d colls → bound_to (set_next_id n w) d colls.
Proof. by intros (? & ? & ?). Qed.

(** One insertion: it adds one row, with the text and the vector given, or
    raises and changes nothing. *)
Lemma insert_texts_cases name text embedding w r w' :
  insert_texts name text embedding w = (r, w') →
  (r = Ok tt ∧
   ∃ doc, doc_text doc = text ∧ as_vector embedding = Some (doc_embedding doc) ∧
          rows_of w' name = rows_of w name ++ [doc]) ∨
  (∃ e, r = Raise e ∧ w' = w).
Proof.
  intros Hrun. unfold insert_texts, bind, Milvus.insert, bind in Hrun.
  destruct (using_db_cases w) as [(d & colls & Hb) | (e & He)].
  2: { unfold Milvus.resolve, bind in Hrun. rewrite He in Hrun.
       injection Hrun as <- <-. right; eauto. }
  rewrite (resolve_bound Hb) in Hrun.
  destruct (colls !! name) as [c|] eqn:Hc.
  2: { injection Hrun as <- <-. right; eauto. }
  simpl in Hrun.
  destruct (as_vector embedding) as [v|] eqn:Hv.
  2: { injection Hrun as <- <-. right; eauto. }
  case_decide as Hfit.
  2: { injection Hrun as <- <-. right; eauto. }
  set (c' := mkCollection _ _ _ _ _) in Hrun.
  pose proof (put_bound (bound_to_set_next_id _ _ _ (next_id w + 1) Hb) name c') as Hb'.
  unfold Milvus.flush, bind in Hrun.
  destruct (Milvus.put d name c' _) as [[] w1] eqn:Hput; [| done].
  simpl in Hb'. rewrite (resolve_bound Hb'), lookup_insert_eq in Hrun.
  injection Hrun as <- <-. left. split; [done |].
  exists (mkDocument (next_id w) text v). split; [done |]. split; [done |].
  rewrite (rows_of_bound Hb'), lookup_insert_eq, (rows_of_bound Hb), Hc. done.
Qed.

(** One turn of the loop of [setup_collection]: a row with the
    preprocessed text is added, and then the embedding call had not failed;
    or the turn raises and no row is added. *)
Lemma setup_item_cases E name t w r w' :
  setup_item E name t w = (r, w') →
  (r = Ok tt ∧ ¬ embedding_fails E t ∧
   map doc_text (rows_of w' name) =
   map doc_text (rows_of w name) ++ [preprocess_text E t]) ∨
  (∃ e, r = Raise e ∧ rows_of w' name = rows_of w name).
Proof.
  unfold setup_item, bind. rewrite generate_embeddings_openai_run.
  intros Hrun. apply insert_texts_cases in Hrun as [(-> & doc & Ht & Hv & Hrows) | (e & -> & ->)].
  - left. split; [done |]. split.
    + intros (e & He). by rewrite He in Hv.
    + rewrite Hrows, rows_of_log_request, map_app. simpl. by rewrite Ht.
  - right. eauto.
Qed.

(** The loop stops at the first text whose embedding call fails: it
    raises, having stored rows for texts before that one only. *)
Lemma for_each_setup_item_abort E name pre t post w :
  embedding_fails E t →
  ∃ e w' j,
    for_each (pre ++ t :: post) (setup_item E name) w = (Raise e, w') ∧
    (j <= length pre)%nat ∧
    map doc_text (rows_of w' name) =
    map doc_text (rows_of w name) ++ map (preprocess_text E) (take j pre).
Proof.
  intros Hfail. revert w. induction pre as [| x pre IH]; intros w; simpl.
  - unfold bind. destruct (setup_item E name t w) as [r w'] eqn:Hrun.
    destruct (setup_item_cases _ _ _ _ _ _ Hrun) as [(_ & Hok & _) | (e & -> & Hrows)]; [done |].
    exists e, w', 0%nat. rewrite Hrows, app_nil_r. done.
  - unfold bind at 1. destruct (setup_item E name x w) as [r w1] eqn:Hrun.
    destruct (setup_item_cases _ _ _ _ _ _ Hrun) as [(-> & _ & Hrows) | (e & -> & Hrows)].
    + destruct (IH w1) as (e & w' & j & Hloop & Hj & Hrows').
      exists e, w', (S j). split; [done |]. split; [lia |].
      rewrite Hrows', Hrows. simpl. by rewrite <- app_assoc.
    + exists e, w1, 0%nat. rewrite Hrows, app_nil_r. split; [done |]. split; [lia | done].
Qed.

Lemma create_collection_cases model_name w r w1 :
  create_collection model_name w = (r, w1) →
  (∃ e, r = Raise e ∧ w1 = w) ∨
  (r = Ok collection_name ∧ rows_of w1 collection_name = rows_of w collection_name).
Proof.
  intros Hrun.
  destruct (using_db_cases w) as [(d & colls & Hb) | (e & He)].
  - destruct (colls !! collection_name) as [c|] eqn:Hc.
    + rewrite (create_collection_existing _ _ _ _ _ Hb Hc) in Hrun.
      injection Hrun as <- <-. by right.
    + rewrite (create_collection_fresh _ _ _ _ Hb Hc) in Hrun.
      injection Hrun as <- <-. right. split; [done |].
      etrans; [apply (rows_of_bound (put_bound Hb collection_name _)) |].
      by rewrite lookup_insert_eq, (rows_of_bound Hb), Hc.
  - unfold create_collection, bind, Milvus.has_collection, bind in Hrun.
    rewrite He in Hrun. injection Hrun as <- <-. left; eauto.
Qed.

(** C5. When the embedding call fails for a text of the seed corpus,
    [setup_collection] raises, and so does [reset_database]: initialization
    is aborted.  The collection then holds, beyond what it held, rows for
    texts that precede the failing one only: nothing is stored for that text
    or for a later one. *)
Theorem setup_collection_embedding_failure_aborts E pre t post w :
  initial_texts E = pre ++ t :: post →
  embedding_fails E t →
  (∃ e w' j,
     setup_collection E w = (Raise e, w') ∧
     (j <= length pre)%nat ∧
     map doc_text (rows_of w' collection_name) =
     map doc_text (rows_of w collection_name) ++ map (preprocess_text E) (take j pre)) ∧
  (∃ e w', reset_database E w = (Raise e, w')).
Proof.
  intros Htexts Hfail.
  assert (∀ w0, ∃ e w' j,
     setup_collection E w0 = (Raise e, w') ∧
     (j <= length pre)%nat ∧
     map doc_text (rows_of w' collection_name) =
     map doc_text (rows_of w0 collection_name) ++ map (preprocess_text E) (take j pre))
    as Hsetup.
  { intros w0. unfold setup_collection. unfold bind at 1.
    destruct (create_collection _ w0) as [r w1] eqn:Hcreate.
    destruct (create_collection_cases _ _ _ _ Hcreate) as [(e & -> & ->) | (-> & Hrows)].
    - exists e, w0, 0%nat. rewrite app_nil_r. split; [done |]. split; [lia | done].
    - rewrite Htexts. unfold bind at 1.
      destruct (for_each_setup_item_abort E collection_name pre t post w1 Hfail)
        as (e & w' & j & -> & Hj & Hrows').
      exists e, w', j. rewrite Hrows', Hrows. done. }
  split; [apply Hsetup |].
  unfold reset_database. unfold bind at 1.
  destruct (remove_existing_database w) as [[[] | e] w1].
  - destruct (Hsetup w1) as (e & w' & _ & Hrun & _).
    exists e, w'. unfold bind. by rewrite Hrun.
  - eauto.
Qed.

(** ** Reset and ingestion of the whole corpus *)

Lemma connect_ok w db colls :
  reachable w = true → databases w !! db = Some colls →
  Milvus.connect db w = (Ok tt, set_conn_db (Some db) w).
Proof. intros Hr Hd. unfold Milvus.connect, Milvus.rpc. by rewrite Hr, Hd. Qed.

Lemma connected_ok w d :
  reachable w = true → conn_db w = Some d → Milvus.connected w = (Ok tt, w).
Proof. intros Hr Hc. unfold Milvus.connected, Milvus.rpc. by rewrite Hr, Hc. Qed.

Lemma fold_delete_lookup (l : list string) (colls : gmap string Collection) k :
  foldl (fun m name => delete name m) colls l !! k =
  if decide (k ∈ l) then None else colls !! k.
Proof.
  revert colls. induction l as [| x l IH]; intros colls; cbn [foldl].
  - case_decide as Hin; [by apply elem_of_nil in Hin | done].
  - rewrite IH.
    destruct (decide (k ∈ l)) as [Hin | Hout]; destruct (decide (k ∈ x :: l)) as [Hin' | Hout'].
    + done.
    + destruct Hout'. apply elem_of_cons. by right.
    + apply elem_of_cons in Hin' as [-> | ?]; [apply lookup_delete_eq | done].
    + apply lookup_delete_ne. intros ->. apply Hout', elem_of_cons. by left.
Qed.

Lemma drop_collection_bound name w d colls :
  bound_to w d colls →
  Milvus.drop_collection name w =
  (Ok tt, set_databases (<[d := delete name colls]> (databases w)) w).
Proof.
  intros Hb. unfold Milvus.drop_collection, bind. by rewrite (using_db_bound Hb).
Qed.

Lemma for_each_drop_collection l w d colls :
  bound_to w d colls →
  for_each l Milvus.drop_collection w =
  (Ok tt,
   match l with
   | [] => w
   | _ => set_databases
            (<[d := foldl (fun m name => delete name m) colls l]> (databases w)) w
   end).
Proof.
  revert w colls. induction l as [| x l IH]; intros w colls Hb; [done |].
  cbn [for_each]. unfold bind at 1. rewrite (drop_collection_bound _ _ _ _ Hb).
  set (w1 := set_databases _ w).
  assert (bound_to w1 d (delete x colls)) as Hb1.
  { destruct Hb as (Hr & Hc & Hd). repeat split; [done | done |].
    simpl. apply lookup_insert_eq. }
  rewrite (IH w1 (delete x colls) Hb1).
  destruct l as [| y l]; [done |].
  unfold w1, set_databases. simpl. by rewrite insert_insert_eq.
Qed.

Lemma drop_all_empty (colls : gmap string Collection) :
  foldl (fun m name => delete name m) colls (elements (dom colls)) = ∅.
Proof.
  apply map_empty. intros k. rewrite fold_delete_lookup.
  case_decide as Hin; [done |].
  apply not_elem_of_dom. by rewrite elem_of_elements in Hin.
Qed.

(** When the database exists, [remove_existing_database] leaves it empty,
    with the connection bound to it. *)
Lemma remove_existing_database_existing w colls0 colls :
  reachable w = true →
  databases w !! "default" = Some colls0 →
  databases w !! database_name = Some colls →
  ∃ w', remove_existing_database w = (Ok tt, w') ∧ bound_to w' database_name ∅.
Proof.
  intros Hr H0 Hdb. unfold remove_existing_database.
  unfold bind at 1. rewrite (connect_ok _ _ _ Hr H0).
  set (w1 := set_conn_db _ w).
  unfold bind at 1. unfold Milvus.list_database, bind at 1.
  rewrite (connected_ok w1 "default" Hr eq_refl).
  cbn beta iota.
  rewrite bool_decide_eq_true_2
    by (apply elem_of_elements, elem_of_dom; by exists colls).
  unfold bind at 1. unfold bind at 1.
  rewrite (connect_ok w1 _ _ Hr Hdb).
  set (w2 := set_conn_db _ w1).
  assert (bound_to w2 database_name colls) as Hb2 by done.
  unfold bind at 1. unfold Milvus.list_collections, bind at 1.
  rewrite (using_db_bound Hb2). cbn beta iota. unfold ret at 1.
  unfold bind at 1. cbn [snd].
  rewrite (for_each_drop_collection _ _ _ _ Hb2).
  set (w3 := match elements (dom colls) with [] => w2 | _ => _ end).
  assert (reachable w3 = true ∧ conn_db w3 = Some database_name ∧
          ∃ colls3, databases w3 !! database_name = Some colls3 ∧ dom colls3 = ∅)
    as (Hr3 & Hc3 & colls3 & Hd3 & Hdom3).
  { unfold w3. destruct (elements (dom colls)) as [| x l] eqn:Hel.
    - split; [exact Hr |]. split; [reflexivity |]. exists colls. split; [exact Hdb |].
      apply elements_empty_inv in Hel. by apply leibniz_equiv in Hel.
    - split; [exact Hr |]. split; [reflexivity |].
      eexists. split; [apply lookup_insert_eq |].
      rewrite <- Hel, drop_all_empty. apply dom_empty_L. }
  unfold Milvus.drop_database, bind at 1.
  rewrite (connected_ok w3 _ Hr3 Hc3). rewrite Hd3.
  rewrite decide_False by done. rewrite decide_True by done.
  set (w4 := set_databases _ w3).
  unfold Milvus.create_database, bind.
  rewrite (connected_ok w4 database_name Hr3 Hc3).
  assert (databases w4 !! database_name = None) as -> by apply lookup_delete_eq.
  eexists. split; [reflexivity |].
  split; [exact Hr3 |]. split; [exact Hc3 |]. apply lookup_insert_eq.
Qed.

Lemma bound_to_log_request w d colls r :
  bound_to w d colls → bound_to (log_request r w) d colls.
Proof. by intros (? & ? & ?). Qed.

Lemma insert_texts_ok name text embedding v w d colls c :
  bound_to w d colls →
  colls !! name = Some c →
  as_vector embedding = Some v →
  length v = coll_dim c →
  (String.length text <= coll_max_length c)%nat →
  ∃ w',
    insert_texts name text embedding w = (Ok tt, w') ∧
    bound_to w' d
      (<[name := mkCollection (coll_dim c) (coll_max_length c)
                   (coll_rows c ++ [mkDocument (next_id w) text v])
                   (coll_indexed c) (coll_loaded c)]> colls) ∧
    embedding_requests w' = embedding_requests w.
Proof.
  intros Hb Hc Hv Hlen Htext. unfold insert_texts, bind, Milvus.insert, bind.
  rewrite (resolve_bound Hb), Hc. cbn beta iota. cbn [fst snd]. rewrite Hv.
  rewrite decide_True by done.
  set (c' := mkCollection _ _ _ _ _).
  pose proof (put_bound (bound_to_set_next_id _ _ _ (next_id w + 1) Hb) name c') as Hb'.
  change (Milvus.put d name c' (set_next_id (next_id w + 1) w))
    with (Ok tt, (Milvus.put d name c' (set_next_id (next_id w + 1) w)).2).
  cbn beta iota. unfold Milvus.flush, bind.
  rewrite (resolve_bound Hb'), lookup_insert_eq.
  eexists. split; [reflexivity |]. split; [exact Hb' | reflexivity].
Qed.

(** What one turn of the loop of [setup_collection] stores and sends: the
    row has the preprocessed text and the vector of the answer to the text as
    it is in the corpus, which is the text sent to the embedding API. *)
Lemma setup_item_stores E name t w d colls c embedding v :
  bound_to w d colls →
  colls !! name = Some c →
  read_embedding (openai_embeddings E t (OPENAI_EMBEDDING_MODEL E)) = Ok embedding →
  as_vector embedding = Some v →
  length v = coll_dim c →
  (String.length (preprocess_text E t) <= coll_max_length c)%nat →
  ∃ w',
    setup_item E name t w = (Ok tt, w') ∧
    rows_of w' name = coll_rows c ++ [mkDocument (next_id w) (preprocess_text E t) v] ∧
    embedding_requests w' = embedding_requests w ++ [(t, OPENAI_EMBEDDING_MODEL E)].
Proof.
  intros Hb Hc Hread Hv Hlen Htext.
  unfold setup_item, bind. rewrite generate_embeddings_openai_run, Hread.
  destruct (insert_texts_ok name (preprocess_text E t) embedding v _ d colls c
              (bound_to_log_request _ _ _ (t, OPENAI_EMBEDDING_MODEL E) Hb) Hc Hv Hlen Htext)
    as (w' & -> & Hb' & Hreq).
  exists w'. split; [done |]. split; [| by rewrite Hreq].
  by rewrite (rows_of_bound Hb'), lookup_insert_eq.
Qed.

Lemma setup_item_ok E name t w d colls c :
  bound_to w d colls →
  colls !! name = Some c →
  coll_dim c = embedding_dim (OPENAI_EMBEDDING_MODEL E) →
  coll_max_length c = 1000%nat →
  embeddable E t →
  ∃ w' c',
    setup_item E name t w = (Ok tt, w') ∧
    bound_to w' d (<[name := c']> colls) ∧
    coll_dim c' = coll_dim c ∧ coll_max_length c' = coll_max_length c ∧
    coll_indexed c' = coll_indexed c ∧
    map doc_text (coll_rows c') = map doc_text (coll_rows c) ++ [preprocess_text E t].
Proof.
  intros Hb Hc Hdim Hmax (embedding & v & Hread & Hv & Hlen & Htext).
  unfold setup_item, bind. rewrite generate_embeddings_openai_run, Hread.
  destruct (insert_texts_ok name (preprocess_text E t) embedding v _ d colls c
              (bound_to_log_request _ _ _ (t, OPENAI_EMBEDDING_MODEL E) Hb) Hc Hv)
    as (w' & -> & Hb' & _);
    [congruence | lia |].
  eexists w', _. split; [done |]. split; [exact Hb' |].
  cbn. rewrite map_app. done.
Qed.

Lemma for_each_setup_item_ok E name l :
  ∀ w d colls c,
    bound_to w d colls →
    colls !! name = Some c →
    coll_dim c = embedding_dim (OPENAI_EMBEDDING_MODEL E) →
    coll_max_length c = 1000%nat →
    Forall (embeddable E) l →
    ∃ w' colls' c',
      for_each l (setup_item E name) w = (Ok tt, w') ∧
      bound_to w' d colls' ∧
      colls' !! name = Some c' ∧
      coll_indexed c' = coll_indexed c ∧
      map doc_text (coll_rows c') = map doc_text (coll_rows c) ++ map (preprocess_text E) l.
Proof.
  induction l as [| t l IH]; intros w d colls c Hb Hc Hdim Hmax Hall.
  - exists w, colls, c. rewrite app_nil_r. done.
  - apply Forall_cons in Hall as [Ht Hall].
    destruct (setup_item_ok E name t w d colls c Hb Hc Hdim Hmax Ht)
      as (w1 & c1 & Hrun & Hb1 & Hdim1 & Hmax1 & Hidx1 & Hrows1).
    destruct (IH w1 d (<[name := c1]> colls) c1 Hb1 (lookup_insert_eq _ _ _))
      as (w' & colls' & c' & Hloop & Hb' & Hc' & Hidx' & Hrows'); [congruence .. | done |].
    exists w', colls', c'. cbn [for_each]. unfold bind. rewrite Hrun, Hloop.
    split; [done |]. split; [done |]. split; [done |]. split; [congruence |].
    rewrite Hrows', Hrows1, <- app_assoc. done.
Qed.

Lemma create_index_bound name w d colls c :
  bound_to w d colls →
  colls !! name = Some c →
  ∃ w', create_index name w = (Ok tt, w') ∧ rows_of w' name = coll_rows c.
Proof.
  intros Hb Hc. unfold create_index, bind, Milvus.indexes, bind.
  rewrite (resolve_bound Hb), Hc. cbn beta iota. cbn [fst snd]. unfold ret.
  destruct (coll_indexed c).
  - exists w. split; [done |]. by rewrite (rows_of_bound Hb), Hc.
  - unfold Milvus.create_index, bind. rewrite (resolve_bound Hb), Hc.
    cbn beta iota. cbn [fst snd]. eexists. split; [reflexivity |].
    etrans; [apply (rows_of_bound (put_bound Hb name _)) |].
    by rewrite lookup_insert_eq.
Qed.

(** In a database without the collection, and with a seed corpus whose
    texts can all be embedded and stored, [setup_collection] stores one row
    per text, in the order of the corpus. *)
Lemma setup_collection_fresh E w d colls :
  bound_to w d colls →
  colls !! collection_name = None →
  Forall (embeddable E) (initial_texts E) →
  ∃ w',
    setup_collection E w = (Ok collection_name, w') ∧
    map doc_text (rows_of w' collection_name) = map (preprocess_text E) (initial_texts E).
Proof.
  intros Hb Hc Hall. unfold setup_collection. unfold bind at 1.
  rewrite (create_collection_fresh _ _ _ _ Hb Hc).
  set (c0 := mkCollection _ _ _ _ _).
  pose proof (put_bound Hb collection_name c0) as Hb0.
  destruct (for_each_setup_item_ok E collection_name (initial_texts E) _ d _ c0
              Hb0 (lookup_insert_eq _ _ _) eq_refl eq_refl Hall)
    as (w1 & colls1 & c1 & Hloop & Hb1 & Hc1 & _ & Hrows1).
  destruct (create_index_bound collection_name w1 d colls1 c1 Hb1 Hc1)
    as (w2 & Hindex & Hrows2).
  exists w2. unfold bind. rewrite Hloop, Hindex. split; [done |].
  by rewrite Hrows2, Hrows1.
Qed.

(** When the database [database_name] exists, [reset_database] ends with
    exactly the seed corpus in the collection, whatever the database held. *)
Lemma reset_database_existing_database E w colls0 colls :
  reachable w = true →
  databases w !! "default" = Some colls0 →
  databases w !! database_name = Some colls →
  Forall (embeddable E) (initial_texts E) →
  ∃ w',
    reset_database E w = (Ok collection_name, w') ∧
    map doc_text (rows_of w' collection_name) = map (preprocess_text E) (initial_texts E) ∧
    length (rows_of w' collection_name) = length (initial_texts E).
Proof.
  intros Hr H0 Hdb Hall. unfold reset_database. unfold bind at 1.
  destruct (remove_existing_database_existing w colls0 colls Hr H0 Hdb) as (w1 & -> & Hb1).
  destruct (setup_collection_fresh E w1 database_name ∅ Hb1 (lookup_empty _) Hall)
    as (w2 & Hsetup & Hrows).
  exists w2. unfold bind. rewrite Hsetup. split; [done |]. split; [done |].
  by rewrite <- (length_map doc_text), Hrows, length_map.
Qed.

(** ** The query path *)

Lemma search_similar_texts_unreachable collection query top_k w :
  reachable w = false →
  search_similar_texts collection query top_k w = (Raise (MilvusException Unavailable), w).
Proof.
  intros Hr.
  unfold search_similar_texts, bind, Milvus.load, bind, Milvus.resolve, bind,
    Milvus.using_db, Milvus.rpc.
  by rewrite Hr.
Qed.

(** A search with something that is not a vector ([None], for one) raises
    an exception of the store, in every world. *)
Lemma search_similar_texts_no_vector collection query top_k w :
  as_vector query = None →
  ∃ e w', search_similar_texts collection query top_k w = (Raise (MilvusException e), w').
Proof.
  intros Hq. unfold search_similar_texts, bind at 1.
  destruct (using_db_cases w) as [(d & colls & Hb) | (e & He)].
  - unfold Milvus.load, bind. rewrite (resolve_bound Hb).
    destruct (colls !! collection) as [c|] eqn:Hc; [| eauto].
    simpl. destruct (coll_indexed c) eqn:Hi; [| unfold raise; eauto].
    set (c' := mkCollection _ _ _ _ _).
    pose proof (put_bound Hb collection c') as Hb'.
    destruct (Milvus.put d collection c' w) as [[] w1] eqn:Hput; [| done].
    simpl in Hb'. unfold bind, Milvus.search, bind.
    rewrite (resolve_bound Hb'), lookup_insert_eq. simpl. rewrite Hq.
    unfold raise. eauto.
  - unfold Milvus.load, bind, Milvus.resolve, bind. rewrite He. eauto.
Qed.

(** The store calls do not send anything to the embedding API. *)
Lemma search_similar_texts_requests collection query top_k w :
  embedding_requests (search_similar_texts collection query top_k w).2 = embedding_requests w.
Proof.
  unfold search_similar_texts, bind at 1.
  destruct (using_db_cases w) as [(d & colls & Hb) | (e & He)].
  - unfold Milvus.load, bind. rewrite (resolve_bound Hb).
    destruct (colls !! collection) as [c|] eqn:Hc; [| done].
    simpl. destruct (coll_indexed c) eqn:Hi; [| done].
    set (c' := mkCollection _ _ _ _ _).
    pose proof (put_bound Hb collection c') as Hb'.
    change (Milvus.put d collection c' w) with (Ok tt, (Milvus.put d collection c' w).2).
    change (embedding_requests w) with (embedding_requests (Milvus.put d collection c' w).2).
    unfold bind, Milvus.search, bind.
    rewrite (resolve_bound Hb'), lookup_insert_eq. simpl.
    destruct (as_vector query); [| done].
    repeat case_decide; done.
  - unfold Milvus.load, bind, Milvus.resolve, bind. by rewrite He.
Qed.

(** C1, as the code has it.  Nothing in the query path catches an
    exception.  When the embedding call fails, [generate_embeddings_openai]
    returns [None], the search is run with it, and the exception the store
    raises for it leaves [webhook_message]; when the store cannot be reached,
    its exception leaves [webhook_message] as well.  In neither case is an
    empty list of results returned. *)
Theorem webhook_message_failure_propagates E collection text w :
  embedding_fails E (py_lower (py_strip text)) ∨ reachable w = false →
  ∃ e w', webhook_message E collection text w = (Raise (MilvusException e), w').
Proof.
  intros Hfail. unfold webhook_message, bind at 1.
  rewrite generate_embeddings_openai_run.
  set (w1 := log_request _ w). set (v := match read_embedding _ with Ok _ => _ | Raise _ => _ end).
  unfold bind.
  destruct Hfail as [(e & He) | Hr].
  - assert (v = PNone) as -> by (unfold v; by rewrite He).
    destruct (search_similar_texts_no_vector collection PNone 4 w1 eq_refl)
      as (e' & w' & ->). eauto.
  - rewrite (search_similar_texts_unreachable collection v 4 w1 Hr). eauto.
Qed.

(** C9, as the code has it.  The text sent to the embedding API for a
    query is the text of the message with the white space at its ends removed
    and its letters put in lower case; [preprocess_text] has no part in it:
    the run is the same whatever the normalizer and the tokenizer are. *)
Theorem webhook_message_query_text E collection text w :
  embedding_requests (webhook_message E collection text w).2 =
    embedding_requests w ++ [(py_lower (py_strip text), OPENAI_EMBEDDING_MODEL E)] ∧
  ∀ normalize' word_tokenize',
    webhook_message
      (mkEnv normalize' word_tokenize' (initial_texts E) (OPENAI_EMBEDDING_MODEL E)
             (openai_embeddings E))
      collection text w
    = webhook_message E collection text w.
Proof.
  split; [| done].
  unfold webhook_message, bind at 1. rewrite generate_embeddings_openai_run.
  set (w1 := log_request _ w). set (v := match read_embedding _ with Ok _ => _ | Raise _ => _ end).
  pose proof (search_similar_texts_requests collection v 4 w1) as Hreq.
  unfold bind. destruct (search_similar_texts collection v 4 w1) as [[rs | e] w2]; simpl in *;
    by rewrite Hreq.
Qed.

(** C6, as the code has it.  [generate_embeddings_openai] never raises.
    It returns [None] when the service gives no answer, answers with an error
    status, answers with a body that is not JSON, or with one that has no
    [data[0].embedding]; otherwise it returns that field as the service sent
    it, whatever its length. *)
Theorem generate_embeddings_openai_returns E text model_name w :
  ∃ v,
    generate_embeddings_openai E text model_name w = (Ok v, log_request (text, model_name) w) ∧
    (openai_embeddings E text model_name = NoResponse → v = PNone) ∧
    (∀ status body,
       openai_embeddings E text model_name = Response status body →
       400 <= status < 600 → v = PNone) ∧
    (∀ status,
       openai_embeddings E text model_name = Response status None → v = PNone) ∧
    (∀ status result e,
       openai_embeddings E text model_name = Response status (Some result) →
       (getitem_str result "data" = Raise e ∨
        (∃ data, getitem_str result "data" = Ok data ∧
           (getitem_0 data = Raise e ∨
            ∃ first, getitem_0 data = Ok first ∧ getitem_str first "embedding" = Raise e))) →
       v = PNone) ∧
    (∀ status result data first embeddings,
       openai_embeddings E text model_name = Response status (Some result) →
       ¬ (400 <= status < 600) →
       getitem_str result "data" = Ok data →
       getitem_0 data = Ok first →
       getitem_str first "embedding" = Ok embeddings →
       v = embeddings).
Proof.
  eexists. split; [apply generate_embeddings_openai_run |].
  destruct (openai_embeddings E text model_name) as [| status body]; simpl.
  { repeat split; done. }
  assert (((400 <=? status) && (status <? 600)) = true ↔ 400 <= status < 600) as Herr
    by (rewrite andb_true_iff, Z.leb_le, Z.ltb_lt; done).
  split; [done |].
  destruct ((400 <=? status) && (status <? 600)) eqn:Hst.
  { repeat split; try done.
    intros st result data first em [= -> ->] Hnot. destruct Hnot. by apply Herr. }
  split.
  { intros st b [= -> ->] Hrange. apply Herr in Hrange. done. }
  destruct body as [result |]; [| repeat split; done].
  split; [done |]. split.
  - intros st r e [= -> ->] Hmiss.
    destruct Hmiss as [-> | (data & -> & [-> | (first & -> & ->)])]; done.
  - intros st r data first em [= -> ->] _ -> -> ->. done.
Qed.

(** ** Examples *)

(** C1 fails on the code: the embedding service cannot be reached for the
    query "Down", and the query path raises the store's exception instead of
    returning an empty list of results. *)
Lemma webhook_message_embedding_down :
  embedding_fails E_demo (py_lower (py_strip "Down")) ∧
  (webhook_message E_demo collection_name "Down" w_small).1
    = Raise (MilvusException SchemaMismatch) ∧
  ∀ context, (webhook_message E_demo collection_name "Down" w_small).1 ≠ Ok ([], context).
Proof.
  split; [by exists RequestException |].
  split; [by vm_compute |].
  intros context H. vm_compute in H. discriminate.
Qed.

Lemma webhook_message_failure_propagates_witness :
  ∃ e w', webhook_message E_demo collection_name "Down" w_small
          = (Raise (MilvusException e), w').
Proof.
  apply (webhook_message_failure_propagates E_demo collection_name "Down" w_small).
  left. exists RequestException. reflexivity.
Defined.

(** C6 fails on the code: the service answers "short" with a vector of one
    component, and that vector is returned for a model of dimension 3072. *)
Lemma generate_embeddings_openai_wrong_length :
  "short" ≠ "" ∧
  (generate_embeddings_openai E_demo "short" "text-embedding-3-large" w_connected).1
    = Ok (PList [PNum 1]) ∧
  as_vector (PList [PNum 1]) = Some [1] ∧
  length [1] ≠ embedding_dim "text-embedding-3-large".
Proof.
  split; [done |]. split; [by vm_compute |]. split; [done |].
  vm_compute. lia.
Qed.

(** C9 fails on the code: the message " Hi " is embedded as "hi". *)
Lemma webhook_message_changes_query :
  embedding_requests (webhook_message E_demo collection_name " Hi " w_small).2
    = [("hi", "text-embedding-3-large")] ∧
  "hi" ≠ " Hi ".
Proof. split; [by vm_compute | done]. Qed.

(** C2 on the code: [setup_collection] stores the preprocessed text "a b"
    of the seed text "ab" with the embedding of the text "ab" itself, not
    with the embedding of "a b"; the texts sent to the embedding API are the
    seed texts as they are. *)
Theorem setup_collection_embeds_raw_text :
  ∃ w' doc rest,
    setup_collection E_demo w_connected = (Ok collection_name, w') ∧
    rows_of w' collection_name = doc :: rest ∧
    doc_text doc = preprocess_text E_demo "ab" ∧
    doc_text doc = "a b" ∧
    read_embedding (openai_embeddings E_demo "ab" (OPENAI_EMBEDDING_MODEL E_demo))
      = Ok (PList (PNum <$> doc_embedding doc)) ∧
    read_embedding (openai_embeddings E_demo "a b" (OPENAI_EMBEDDING_MODEL E_demo))
      ≠ Ok (PList (PNum <$> doc_embedding doc)) ∧
    embedding_requests w'
      = [("ab", "text-embedding-3-large"); ("c,d", "text-embedding-3-large")].
Proof.
  exists (setup_collection E_demo w_connected).2,
         (mkDocument 1 "a b" (repeat 2 3072)),
         [mkDocument 2 "c d" (repeat 3 3072)].
  split; [by vm_compute |]. split; [by vm_compute |].
  split; [by vm_compute |]. split; [done |].
  split; [by vm_compute |]. split; [| by vm_compute].
  intros H. vm_compute in H. discriminate.
Qed.

(** C8 on the code: the database [database_name] does not exist and the
    database "default" holds the collection with one row.
    [remove_existing_database] creates [database_name] and leaves the
    connection bound to "default", so that [setup_collection] finds the old
    collection there and adds the two seed texts to its row: three rows, for
    a corpus of two texts whose embedding calls all succeed. *)
Theorem reset_database_keeps_stale_rows :
  (∀ t, t ∈ initial_texts E_demo → ¬ embedding_fails E_demo t) ∧
  length (initial_texts E_demo) = 2%nat ∧
  ∃ w',
    reset_database E_demo w_stale = (Ok collection_name, w') ∧
    length (rows_of w' collection_name) = 3%nat ∧
    conn_db w' = Some "default" ∧
    databases w' !! database_name = Some ∅.
Proof.
  split.
  { intros t Ht (e & He). simpl in Ht.
    apply elem_of_cons in Ht as [-> | Ht]; [vm_compute in He; discriminate |].
    apply elem_of_cons in Ht as [-> | Ht]; [vm_compute in He; discriminate |].
    by apply elem_of_nil in Ht. }
  split; [done |].
  exists (reset_database E_demo w_stale).2.
  split; [by vm_compute |]. split; [by vm_compute |]. split; by vm_compute.
Qed.

(** On a new server the same branch is taken: [reset_database] creates the
    database [database_name], leaves it empty, and builds the collection in
    the database "default". *)
Example reset_database_new_server :
  ∃ w',
    reset_database E_demo w_new = (Ok collection_name, w') ∧
    conn_db w' = Some "default" ∧
    databases w' !! database_name = Some ∅ ∧
    (∃ c, databases w' !! "default" = Some {[ collection_name := c ]} ∧
          map doc_text (coll_rows c) = ["a b"; "c d"]).
Proof.
  exists (reset_database E_demo w_new).2.
  split; [by vm_compute |]. split; [by vm_compute |]. split; [by vm_compute |].
  eexists. split; by vm_compute.
Qed.

Lemma insert_texts_dimension_mismatch_witness :
  insert_texts collection_name "x" (PList [PNum 1; PNum 2; PNum 3]) w_small
    = (Raise (MilvusException SchemaMismatch), w_small).
Proof.
  apply (insert_texts_dimension_mismatch collection_name "x" (PList [PNum 1; PNum 2; PNum 3])
           [1; 2; 3] w_small database_name small_database small_collection).
  - repeat split; reflexivity.
  - reflexivity.
  - reflexivity.
  - simpl. lia.
Defined.

Lemma create_collection_idempotent_witness :
  create_collection "text-embedding-3-small"
      (create_collection "text-embedding-3-large" w_connected).2
    = (Ok collection_name, (create_collection "text-embedding-3-large" w_connected).2) ∧
  (∀ w2 d colls c,
     bound_to w2 d colls → colls !! collection_name = Some c →
     create_collection "text-embedding-3-small" w2 = (Ok collection_name, w2)).
Proof.
  apply (create_collection_idempotent "text-embedding-3-large" "text-embedding-3-small"
           w_connected).
  reflexivity.
Defined.

Lemma create_collection_dimension_witness :
  ∃ w' c,
    create_collection "text-embedding-ada-002" w_connected = (Ok collection_name, w') ∧
    databases w' !! "default" = Some (<[collection_name := c]> ∅) ∧
    coll_rows c = [] ∧
    ("text-embedding-ada-002" = "text-embedding-3-large" → coll_dim c = 3072%nat) ∧
    ("text-embedding-ada-002" ≠ "text-embedding-3-large" → coll_dim c = 1536%nat).
Proof.
  apply (create_collection_dimension "text-embedding-ada-002" w_connected "default" ∅).
  - repeat split; reflexivity.
  - reflexivity.
Defined.

Lemma setup_collection_embedding_failure_aborts_witness :
  (∃ e w' j,
     setup_collection E_quota w_connected = (Raise e, w') ∧
     (j <= length ["ab"])%nat ∧
     map doc_text (rows_of w' collection_name) =
     map doc_text (rows_of w_connected collection_name)
       ++ map (preprocess_text E_quota) (take j ["ab"])) ∧
  (∃ e w', reset_database E_quota w_connected = (Raise e, w')).
Proof.
  apply (setup_collection_embedding_failure_aborts E_quota ["ab"] "quota" ["c,d"] w_connected).
  - reflexivity.
  - exists HTTPError. reflexivity.
Defined.

(** * Further properties of the program *)

Lemma bind_run {A B} (c : M A) (k : A → M B) w :
  bind c k w =
  match c w with
  | (Ok a, w') => k a w'
  | (Raise e, w') => (Raise e, w')
  end.
Proof. done. Qed.

(** ** The database, removed and created again *)

Lemma list_database_ok w d :
  reachable w = true → conn_db w = Some d →
  Milvus.list_database w = (Ok (elements (dom (databases w))), w).
Proof.
  intros Hr Hc. unfold Milvus.list_database, bind. by rewrite (connected_ok w d Hr Hc).
Qed.

Lemma database_listed (dbs : gmap string (gmap string Collection)) name :
  name ∈ elements (dom dbs) ↔ is_Some (dbs !! name).
Proof. by rewrite elem_of_elements, elem_of_dom. Qed.

Lemma remove_existing_database_run w colls0 :
  reachable w = true →
  databases w !! "default" = Some colls0 →
  ∃ w',
    remove_existing_database w = (Ok tt, w') ∧
    databases w' = <[database_name := ∅]> (databases w) ∧
    conn_db w' =
      Some (if decide (is_Some (databases w !! database_name))
            then database_name else "default") ∧
    reachable w' = true ∧
    next_id w' = next_id w ∧
    embedding_requests w' = embedding_requests w.
Proof.
  intros Hr H0. unfold remove_existing_database.
  unfold bind at 1. rewrite (connect_ok _ _ _ Hr H0).
  set (w1 := set_conn_db _ w).
  unfold bind at 1. rewrite (list_database_ok w1 "default" Hr eq_refl).
  destruct (databases w !! database_name) as [colls |] eqn:Hdb.
  - rewrite bool_decide_eq_true_2 by (apply database_listed; by exists colls).
    rewrite decide_True by eauto.
    unfold bind at 1. unfold bind at 1.
    rewrite (connect_ok w1 _ _ Hr Hdb).
    set (w2 := set_conn_db _ w1).
    assert (bound_to w2 database_name colls) as Hb2 by done.
    unfold bind at 1. unfold Milvus.list_collections, bind at 1.
    rewrite (using_db_bound Hb2). cbn beta iota. unfold ret at 1.
    unfold bind at 1. cbn [snd].
    rewrite (for_each_drop_collection _ _ _ _ Hb2).
    set (w3 := match elements (dom colls) with [] => w2 | _ => _ end).
    assert (reachable w3 = true ∧ conn_db w3 = Some database_name ∧
            next_id w3 = next_id w ∧ embedding_requests w3 = embedding_requests w ∧
            ∃ colls3, databases w3 !! database_name = Some colls3 ∧ dom colls3 = ∅ ∧
                      databases w3 = <[database_name := colls3]> (databases w))
      as (Hr3 & Hc3 & Hn3 & Hq3 & colls3 & Hd3 & Hdom3 & Hdbs3).
    { unfold w3. destruct (elements (dom colls)) as [| x l] eqn:Hel.
      - split; [exact Hr |]. split; [reflexivity |]. split; [reflexivity |].
        split; [reflexivity |]. exists colls. split; [exact Hdb |].
        split; [apply elements_empty_inv in Hel; by apply leibniz_equiv in Hel |].
        symmetry. by apply insert_id.
      - split; [exact Hr |]. split; [reflexivity |]. split; [reflexivity |].
        split; [reflexivity |].
        eexists. split; [apply lookup_insert_eq |].
        split; [rewrite <- Hel, drop_all_empty; apply dom_empty_L | reflexivity]. }
    unfold Milvus.drop_database, bind at 1.
    rewrite (connected_ok w3 _ Hr3 Hc3). rewrite Hd3.
    rewrite decide_False by done. rewrite decide_True by done.
    set (w4 := set_databases _ w3).
    unfold Milvus.create_database, bind.
    rewrite (connected_ok w4 database_name Hr3 Hc3).
    assert (databases w4 !! database_name = None) as -> by apply lookup_delete_eq.
    eexists. split; [reflexivity |].
    split.
    { cbn. rewrite Hdbs3. by rewrite insert_delete_eq, insert_insert_eq. }
    split; [exact Hc3 |]. split; [exact Hr3 |]. split; [exact Hn3 | exact Hq3].
  - rewrite bool_decide_eq_false_2
      by (intros [x Hx]%database_listed; cbn in Hx; congruence).
    rewrite decide_False by (by intros [? ?]).
    unfold bind at 1. unfold ret at 1.
    unfold Milvus.create_database, bind.
    rewrite (connected_ok w1 "default" Hr eq_refl).
    assert (databases w1 !! database_name = None) as -> by exact Hdb.
    eexists. split; [reflexivity |]. split; [reflexivity |].
    split; [reflexivity |]. split; [exact Hr |]. split; reflexivity.
Qed.

(** ** Ingestion, row by row *)

Lemma insert_texts_run name text embedding v w d colls c :
  bound_to w d colls →
  colls !! name = Some c →
  as_vector embedding = Some v →
  length v = coll_dim c →
  (String.length text <= coll_max_length c)%nat →
  insert_texts name text embedding w =
  (Ok tt,
   (Milvus.put d name
      (mkCollection (coll_dim c) (coll_max_length c)
         (coll_rows c ++ [mkDocument (next_id w) text v]) (coll_indexed c) (coll_loaded c))
      (set_next_id (next_id w + 1) w)).2).
Proof.
  intros Hb Hc Hv Hlen Htext. unfold insert_texts, bind, Milvus.insert, bind.
  rewrite (resolve_bound Hb), Hc. cbn beta iota. cbn [fst snd]. rewrite Hv.
  rewrite decide_True by done.
  set (c' := mkCollection _ _ _ _ _).
  pose proof (put_bound (bound_to_set_next_id _ _ _ (next_id w + 1) Hb) name c') as Hb'.
  change (Milvus.put d name c' (set_next_id (next_id w + 1) w))
    with (Ok tt, (Milvus.put d name c' (set_next_id (next_id w + 1) w)).2).
  cbn beta iota. unfold Milvus.flush, bind.
  by rewrite (resolve_bound Hb'), lookup_insert_eq.
Qed.

Lemma put_databases w d colls name c :
  bound_to w d colls →
  databases (Milvus.put d name c w).2 = <[d := <[name := c]> colls]> (databases w).
Proof. intros (_ & _ & Hd). unfold Milvus.put. cbn. by rewrite Hd. Qed.

Lemma for_each_setup_item_run E name l :
  ∀ w d colls c,
    bound_to w d colls →
    colls !! name = Some c →
    coll_dim c = embedding_dim (OPENAI_EMBEDDING_MODEL E) →
    coll_max_length c = 1000%nat →
    Forall (embeddable E) l →
    ∃ w' docs,
      for_each l (setup_item E name) w = (Ok tt, w') ∧
      reachable w' = true ∧
      conn_db w' = Some d ∧
      databases w' =
        <[d := <[name := mkCollection (coll_dim c) (coll_max_length c) (coll_rows c ++ docs)
                           (coll_indexed c) (coll_loaded c)]> colls]> (databases w) ∧
      Forall2 (stored_as E) l docs ∧
      embedding_requests w' =
        embedding_requests w ++ map (fun t => (t, OPENAI_EMBEDDING_MODEL E)) l.
Proof.
  induction l as [| t l IH]; intros w d colls c Hb Hc Hdim Hmax Hall.
  - exists w, []. split; [done |]. rewrite !app_nil_r.
    destruct Hb as (Hr & Hcn & Hd). split; [done |]. split; [done |]. split; [| done].
    destruct c. cbn. by rewrite (insert_id colls), insert_id.
  - apply Forall_cons in Hall as [(embedding & v & Hread & Hv & Hlen & Htext) Hall].
    set (w0 := log_request (t, OPENAI_EMBEDDING_MODEL E) w).
    set (c1 := mkCollection (coll_dim c) (coll_max_length c)
                 (coll_rows c ++ [mkDocument (next_id w0) (preprocess_text E t) v])
                 (coll_indexed c) (coll_loaded c)).
    set (w1 := (Milvus.put d name c1 (set_next_id (next_id w0 + 1) w0)).2).
    assert (bound_to (set_next_id (next_id w0 + 1) w0) d colls) as Hb0
      by by apply bound_to_set_next_id, bound_to_log_request.
    assert (setup_item E name t w = (Ok tt, w1)) as Hrun.
    { unfold setup_item, bind. rewrite generate_embeddings_openai_run, Hread.
      apply (insert_texts_run name _ embedding v w0 d colls c);
        [by apply bound_to_log_request | done | done | congruence | lia]. }
    assert (bound_to w1 d (<[name := c1]> colls)) as Hb1 by apply (put_bound Hb0).
    destruct (IH w1 d (<[name := c1]> colls) c1 Hb1 (lookup_insert_eq _ _ _) Hdim Hmax Hall)
      as (w' & docs & Hloop & Hr' & Hc' & Hdbs' & Hdocs & Hreq).
    exists w', (mkDocument (next_id w0) (preprocess_text E t) v :: docs).
    cbn [for_each]. unfold bind. rewrite Hrun, Hloop.
    split; [done |]. split; [done |]. split; [done |]. split.
    { rewrite Hdbs'. unfold w1. rewrite (put_databases _ _ _ _ _ Hb0).
      rewrite !insert_insert_eq. cbn. by rewrite <- app_assoc. }
    split.
    { constructor; [| done]. split; [done |]. by exists embedding. }
    rewrite Hreq. cbn. by rewrite <- app_assoc.
Qed.

Lemma setup_collection_run E w d colls :
  bound_to w d colls →
  colls !! collection_name = None →
  Forall (embeddable E) (initial_texts E) →
  ∃ w' docs,
    setup_collection E w = (Ok collection_name, w') ∧
    reachable w' = true ∧
    conn_db w' = Some d ∧
    databases w' =
      <[d := <[collection_name := corpus_collection E docs]> colls]> (databases w) ∧
    Forall2 (stored_as E) (initial_texts E) docs ∧
    embedding_requests w' = embedding_requests w ++ corpus_requests E.
Proof.
  intros Hb Hc Hall. unfold corpus_collection, corpus_requests, setup_collection. unfold bind at 1.
  rewrite (create_collection_fresh _ _ _ _ Hb Hc).
  set (c0 := mkCollection _ _ _ _ _).
  pose proof (put_bound Hb collection_name c0) as Hb0.
  destruct (for_each_setup_item_run E collection_name (initial_texts E) _ d _ c0
              Hb0 (lookup_insert_eq _ _ _) eq_refl eq_refl Hall)
    as (w1 & docs & Hloop & Hr1 & Hc1 & Hdbs1 & Hdocs & Hreq).
  rewrite (put_databases _ _ _ _ _ Hb), !insert_insert_eq in Hdbs1. cbn in Hdbs1.
  set (c1 := mkCollection _ _ docs false false) in Hdbs1.
  assert (bound_to w1 d (<[collection_name := c1]> colls)) as Hb1.
  { split; [done |]. split; [done |]. rewrite Hdbs1. apply lookup_insert_eq. }
  unfold bind at 1. rewrite Hloop.
  unfold bind at 1. unfold create_index, bind at 1. unfold Milvus.indexes, bind at 1.
  rewrite (resolve_bound Hb1), lookup_insert_eq. cbn beta iota. cbn [fst snd coll_indexed c1].
  unfold ret at 1. cbn beta iota.
  unfold Milvus.create_index, bind at 1.
  rewrite (resolve_bound Hb1), lookup_insert_eq. cbn beta iota. cbn [fst snd].
  eexists _, docs. split; [reflexivity |].
  split; [exact Hr1 |]. split; [exact Hc1 |]. split.
  { etrans; [exact (put_databases w1 d _ collection_name _ Hb1) |].
    rewrite Hdbs1. by rewrite !insert_insert_eq. }
  split; [done |]. exact Hreq.
Qed.

(** ** Reset, initialization and start *)

Lemma reset_database_run E w colls0 :
  reachable w = true →
  databases w !! "default" = Some colls0 →
  (databases w !! database_name = None → colls0 !! collection_name = None) →
  Forall (embeddable E) (initial_texts E) →
  ∃ w' docs,
    reset_database E w = (Ok collection_name, w') ∧
    reachable w' = true ∧
    (if decide (is_Some (databases w !! database_name))
     then conn_db w' = Some database_name ∧
          databases w' =
            <[database_name := {[ collection_name := corpus_collection E docs ]}]>
              (databases w)
     else conn_db w' = Some "default" ∧
          databases w' =
            <["default" := <[collection_name := corpus_collection E docs]> colls0]>
              (<[database_name := ∅]> (databases w))) ∧
    Forall2 (stored_as E) (initial_texts E) docs ∧
    embedding_requests w' = embedding_requests w ++ corpus_requests E.
Proof.
  intros Hr H0 Hstale Hall. unfold reset_database. unfold bind at 1.
  destruct (remove_existing_database_run w colls0 Hr H0)
    as (w1 & -> & Hdbs1 & Hconn1 & Hr1 & _ & Hreq1).
  destruct (decide (is_Some (databases w !! database_name))) as [Hex | Hno].
  - assert (bound_to w1 database_name ∅) as Hb1.
    { split; [done |]. split; [done |]. rewrite Hdbs1. apply lookup_insert_eq. }
    destruct (setup_collection_run E w1 database_name ∅ Hb1 (lookup_empty _) Hall)
      as (w2 & docs & Hsetup & Hr2 & Hc2 & Hdbs2 & Hdocs & Hreq2).
    exists w2, docs. unfold bind. rewrite Hsetup.
    split; [done |]. split; [done |]. split; [| split; [done | by rewrite Hreq2, Hreq1]].
    split; [done |]. rewrite Hdbs2, Hdbs1, insert_insert_eq. by rewrite insert_empty.
  - assert (databases w !! database_name = None) as Hnone
      by (destruct (databases w !! database_name); [destruct Hno; eauto | done]).
    assert (bound_to w1 "default" colls0) as Hb1.
    { split; [done |]. split; [done |]. rewrite Hdbs1.
      by rewrite lookup_insert_ne. }
    destruct (setup_collection_run E w1 "default" colls0 Hb1 (Hstale Hnone) Hall)
      as (w2 & docs & Hsetup & Hr2 & Hc2 & Hdbs2 & Hdocs & Hreq2).
    exists w2, docs. unfold bind. rewrite Hsetup.
    split; [done |]. split; [done |]. split; [| split; [done | by rewrite Hreq2, Hreq1]].
    split; [done |]. by rewrite Hdbs2, Hdbs1.
Qed.

(** [initialize_database] when the database and the collection exist. *)
Lemma initialize_database_existing_run E w colls0 colls c :
  reachable w = true →
  databases w !! "default" = Some colls0 →
  databases w !! database_name = Some colls →
  colls !! collection_name = Some c →
  initialize_database E w = (Ok collection_name, set_conn_db (Some database_name) w).
Proof.
  intros Hr H0 Hdb Hc. unfold initialize_database.
  unfold bind at 1. rewrite (connect_ok _ _ _ Hr H0).
  set (w1 := set_conn_db _ w).
  unfold bind at 1. rewrite (list_database_ok w1 "default" Hr eq_refl).
  rewrite bool_decide_eq_true_2 by (apply database_listed; by exists colls).
  unfold bind at 1. rewrite (connect_ok w1 _ _ Hr Hdb).
  set (w2 := set_conn_db _ w1).
  assert (bound_to w2 database_name colls) as Hb2 by done.
  unfold bind at 1. rewrite (has_collection_bound Hb2), Hc.
  rewrite bool_decide_eq_true_2 by eauto.
  unfold Milvus.open_collection, bind. rewrite (resolve_bound Hb2), Hc. done.
Qed.

(** [initialize_database] when the database exists without the collection. *)
Lemma initialize_database_empty_run E w colls0 colls :
  reachable w = true →
  databases w !! "default" = Some colls0 →
  databases w !! database_name = Some colls →
  colls !! collection_name = None →
  initialize_database E w = setup_collection E (set_conn_db (Some database_name) w).
Proof.
  intros Hr H0 Hdb Hc. unfold initialize_database.
  unfold bind at 1. rewrite (connect_ok _ _ _ Hr H0).
  set (w1 := set_conn_db _ w).
  unfold bind at 1. rewrite (list_database_ok w1 "default" Hr eq_refl).
  rewrite bool_decide_eq_true_2 by (apply database_listed; by exists colls).
  unfold bind at 1. rewrite (connect_ok w1 _ _ Hr Hdb).
  set (w2 := set_conn_db _ w1).
  assert (bound_to w2 database_name colls) as Hb2 by done.
  unfold bind at 1. rewrite (has_collection_bound Hb2), Hc.
  rewrite bool_decide_eq_false_2 by (by intros [? ?]).
  done.
Qed.

(** X6. [initialize_database] when the database does not exist does what
    [reset_database] does. *)
Theorem initialize_database_absent_is_reset E w colls0 :
  reachable w = true →
  databases w !! "default" = Some colls0 →
  databases w !! database_name = None →
  initialize_database E w = reset_database E w.
Proof.
  intros Hr H0 Hdb. unfold initialize_database.
  unfold bind at 1. rewrite (connect_ok _ _ _ Hr H0).
  set (w1 := set_conn_db _ w).
  unfold bind at 1. rewrite (list_database_ok w1 "default" Hr eq_refl).
  rewrite bool_decide_eq_false_2
    by (intros [x Hx]%database_listed; cbn in Hx; congruence).
  unfold reset_database.
  assert (remove_existing_database w1 = remove_existing_database w) as Hsame.
  { unfold remove_existing_database.
    rewrite (bind_run (Milvus.connect "default") _ w1),
      (bind_run (Milvus.connect "default") _ w).
    by rewrite (connect_ok w1 _ _ Hr H0), (connect_ok w _ _ Hr H0). }
  rewrite (bind_run remove_existing_database _ w1),
    (bind_run remove_existing_database _ w), Hsame.
  destruct (remove_existing_database w) as [[[] | e] w2]; [| done].
  rewrite bind_run. by destruct (setup_collection E w2) as [[? | ?] ?].
Qed.

(** X7. The start of the program on a reachable server that has the
    databases "default" and [database_name], with a corpus whose texts can
    all be embedded and stored ([embeddable]): the collection the webhook
    searches holds exactly one row per text of the corpus, in order, and the
    corpus has been sent once to the embedding API ([initialize_database]
    finds the collection [reset_database] built). *)
Theorem main_ingests_once E w colls0 colls :
  reachable w = true →
  databases w !! "default" = Some colls0 →
  databases w !! database_name = Some colls →
  Forall (embeddable E) (initial_texts E) →
  ∃ w' docs,
    main E w = (Ok collection_name, w') ∧
    conn_db w' = Some database_name ∧
    databases w' =
      <[database_name := {[ collection_name := corpus_collection E docs ]}]> (databases w) ∧
    Forall2 (stored_as E) (initial_texts E) docs ∧
    embedding_requests w' = embedding_requests w ++ corpus_requests E.
Proof.
  intros Hr H0 Hdb Hall. unfold main. rewrite bind_run.
  destruct (reset_database_run E w colls0 Hr H0) as (w1 & docs & -> & Hr1 & Hcase & Hdocs & Hreq);
    [by rewrite Hdb | done |].
  rewrite decide_True in Hcase by eauto. destruct Hcase as [Hc1 Hdbs1].
  rewrite (initialize_database_existing_run E w1 colls0
             {[ collection_name := corpus_collection E docs ]} (corpus_collection E docs) Hr1).
  - by exists (set_conn_db (Some database_name) w1), docs.
  - rewrite Hdbs1. by rewrite lookup_insert_ne.
  - rewrite Hdbs1. apply lookup_insert_eq.
  - apply lookup_singleton_eq.
Qed.

(** X8. The start of the program on a reachable server where the database
    [database_name] does not exist and the database "default" has no
    collection of the name, with a corpus whose texts can all be embedded
    and stored ([embeddable]): the corpus is ingested twice and sent twice to
    the embedding API, once into the database "default" by [reset_database],
    once into [database_name] by [initialize_database]; the webhook searches
    the collection of [database_name], which holds one row per text of the
    corpus. *)
Theorem main_new_server_ingests_twice E w colls0 :
  reachable w = true →
  databases w !! "default" = Some colls0 →
  databases w !! database_name = None →
  colls0 !! collection_name = None →
  Forall (embeddable E) (initial_texts E) →
  ∃ w' docs0 docs,
    main E w = (Ok collection_name, w') ∧
    conn_db w' = Some database_name ∧
    databases w' =
      <[database_name := {[ collection_name := corpus_collection E docs ]}]>
        (<["default" := <[collection_name := corpus_collection E docs0]> colls0]>
           (databases w)) ∧
    Forall2 (stored_as E) (initial_texts E) docs0 ∧
    Forall2 (stored_as E) (initial_texts E) docs ∧
    embedding_requests w' = embedding_requests w ++ corpus_requests E ++ corpus_requests E.
Proof.
  intros Hr H0 Hdb Hc0 Hall. unfold main. rewrite bind_run.
  destruct (reset_database_run E w colls0 Hr H0) as (w1 & docs0 & -> & Hr1 & Hcase & Hdocs0 & Hreq1);
    [done | done |].
  rewrite decide_False in Hcase by (rewrite Hdb; by intros [? ?]).
  destruct Hcase as [Hc1 Hdbs1].
  rewrite (initialize_database_empty_run E w1
             (<[collection_name := corpus_collection E docs0]> colls0) ∅ Hr1).
  2: { rewrite Hdbs1. apply lookup_insert_eq. }
  2: { rewrite Hdbs1. rewrite lookup_insert_ne by done. apply lookup_insert_eq. }
  2: { apply lookup_empty. }
  set (w2 := set_conn_db (Some database_name) w1).
  assert (bound_to w2 database_name ∅) as Hb2.
  { split; [done |]. split; [done |]. cbn. rewrite Hdbs1.
    rewrite lookup_insert_ne by done. apply lookup_insert_eq. }
  destruct (setup_collection_run E w2 database_name ∅ Hb2 (lookup_empty _) Hall)
    as (w3 & docs & Hsetup & Hr3 & Hc3 & Hdbs3 & Hdocs & Hreq3).
  exists w3, docs0, docs. split; [done |]. split; [done |]. split.
  { rewrite Hdbs3. cbn. rewrite Hdbs1, insert_empty.
    rewrite (insert_insert_ne _ "default" database_name) by done.
    by rewrite insert_insert_eq. }
  split; [done |]. split; [done |].
  rewrite Hreq3. cbn. by rewrite Hreq1, <- app_assoc.
Qed.

(** ** Distances *)

Lemma l2_nonneg u v : 0 <= Milvus.l2 u v.
Proof.
  revert v. induction u as [| a u IH]; intros [| b v]; simpl; try lia.
  specialize (IH v). pose proof (Z.square_nonneg (a - b)). lia.
Qed.

Lemma l2_diag v : Milvus.l2 v v = 0.
Proof. induction v as [| a v IH]; simpl; [done | rewrite IH; lia]. Qed.

(** ** What a search returns *)

Lemma ranked_elem q limit rows h :
  h ∈ Milvus.ranked q limit rows → ∃ doc, doc ∈ rows ∧ h = Milvus.hit_of q doc.
Proof.
  unfold Milvus.ranked. intros Hin%subseteq_take.
  rewrite merge_sort_Permutation in Hin.
  apply list_elem_of_fmap in Hin as (doc & -> & Hdoc). eauto.
Qed.

Lemma ranked_ids_NoDup q limit rows :
  NoDup (doc_id <$> rows) → NoDup (Milvus.hit_id <$> Milvus.ranked q limit rows).
Proof.
  intros Hnd. unfold Milvus.ranked. rewrite fmap_take.
  eapply sublist_NoDup; [| apply sublist_take].
  rewrite merge_sort_Permutation.
  change (map (Milvus.hit_of q) rows) with (Milvus.hit_of q <$> rows).
  rewrite <- list_fmap_compose. exact Hnd.
Qed.

(** X9. Whenever [search_similar_texts] returns, every result is a stored
    row of the collection: its "ID" and "Text" are those of the row and its
    "Distance" is the distance of the row's vector to the query; no row is
    returned twice when the primary keys are distinct.  The search changes no
    row and sends nothing to the embedding API. *)
Theorem search_similar_texts_returns_rows name query top_k w rs w' :
  search_similar_texts name query top_k w = (Ok rs, w') →
  (∃ q, as_vector query = Some q ∧
        ∀ r, r ∈ rs →
             ∃ doc, doc ∈ rows_of w name ∧ ID r = doc_id doc ∧ Text r = doc_text doc ∧
                    Distance r = Milvus.l2 q (doc_embedding doc)) ∧
  (NoDup (doc_id <$> rows_of w name) → NoDup (ID <$> rs)) ∧
  rows_of w' name = rows_of w name ∧
  embedding_requests w' = embedding_requests w.
Proof.
  intros Hrun.
  pose proof (search_similar_texts_requests name query top_k w) as Hreq.
  rewrite Hrun in Hreq.
  destruct (search_similar_texts_ok_inv _ _ _ _ _ _ Hrun)
    as (d & colls & c & q & Hb & Hc & Hi & Hq & Hlen & Hk).
  rewrite (search_similar_texts_bound w d colls c name query q top_k Hb Hc Hi Hq Hlen Hk)
    in Hrun.
  injection Hrun as <- <-.
  rewrite (rows_of_bound Hb), Hc.
  split; [| split; [| split; [| exact Hreq]]].
  - exists q. split; [done |]. intros r Hr.
    apply list_elem_of_fmap in Hr as (h & -> & Hh).
    apply ranked_elem in Hh as (doc & Hdoc & ->). by exists doc.
  - intros Hnd.
    change (map ?f ?l) with (f <$> l). rewrite <- list_fmap_compose.
    by apply ranked_ids_NoDup.
  - etrans; [apply (rows_of_bound (put_bound Hb name _)) |].
    by rewrite lookup_insert_eq.
Qed.

(** The nearest hit, when there is a row and the limit is positive. *)
Lemma ranked_head q limit rows doc :
  1 <= limit →
  doc ∈ rows →
  ∃ h hs,
    Milvus.ranked q limit rows = h :: hs ∧
    (∃ doc', doc' ∈ rows ∧ h = Milvus.hit_of q doc') ∧
    Milvus.hit_le h (Milvus.hit_of q doc).
Proof.
  intros Hk Hdoc. unfold Milvus.ranked.
  set (L := merge_sort Milvus.hit_le (map (Milvus.hit_of q) rows)).
  assert (StronglySorted Milvus.hit_le L) as Hs
    by apply (StronglySorted_merge_sort Milvus.hit_le).
  assert (∀ h, h ∈ L ↔ h ∈ Milvus.hit_of q <$> rows) as Hperm
    by (intros h; unfold L; by rewrite merge_sort_Permutation).
  assert (Milvus.hit_of q doc ∈ L) as Hin by (apply Hperm; by apply list_elem_of_fmap_2).
  destruct L as [| h L']; [by apply elem_of_nil in Hin |].
  destruct (Z.to_nat limit) as [| n] eqn:Hn; [lia |].
  exists h, (take n L'). split; [done |]. split.
  - assert (h ∈ Milvus.hit_of q <$> rows) as Hh by (apply Hperm, elem_of_cons; by left).
    apply list_elem_of_fmap in Hh as (doc' & -> & Hdoc'). eauto.
  - apply elem_of_cons in Hin as [<- | Hin].
    + unfold Milvus.hit_le. lia.
    + apply StronglySorted_cons in Hs as [Hall _].
      rewrite Forall_forall in Hall. by apply Hall.
Qed.

(** A row is among the hits, or no hit comes after it in the order of the
    store. *)
Lemma ranked_nearest q limit rows doc :
  doc ∈ rows →
  Milvus.hit_of q doc ∈ Milvus.ranked q limit rows ∨
  ∀ h, h ∈ Milvus.ranked q limit rows → Milvus.hit_le h (Milvus.hit_of q doc).
Proof.
  intros Hdoc. unfold Milvus.ranked.
  set (L := merge_sort Milvus.hit_le (map (Milvus.hit_of q) rows)).
  assert (StronglySorted Milvus.hit_le L) as Hs
    by apply (StronglySorted_merge_sort Milvus.hit_le).
  assert (Milvus.hit_of q doc ∈ L) as Hin
    by (unfold L; rewrite merge_sort_Permutation; by apply list_elem_of_fmap_2).
  rewrite <- (take_drop (Z.to_nat limit) L) in Hs, Hin.
  apply elem_of_app in Hin as [Hin | Hin]; [by left | right].
  intros h Hh. by eapply StronglySorted_app_1_elem_of.
Qed.

(** C7. A search on a collection that exists and has an index, with a
    query vector of the collection's dimension and a limit the store accepts,
    returns.  Every result is a stored row of the collection: its "ID" and
    "Text" are those of the row, its "Distance" is the distance of the row's
    vector to the query.  The results are the nearest rows: a stored row is
    among them, or else no result is farther from the query than it, nor as
    far with a greater primary key.  There are at most [top_k] results, and
    fewer than [top_k] only when the collection holds fewer than [top_k]
    documents.  They come in ascending order of distance, the smaller
    primary key first among equal distances, so that a result at a strictly
    smaller distance always comes first.  The search of the store is the one
    the spec states; the index and search parameters the program passes
    ("IVF_FLAT", nlist 128, nprobe 10) do not enter it. *)
Theorem search_similar_texts_ranked w d colls c name query q top_k :
  bound_to w d colls →
  colls !! name = Some c →
  coll_indexed c = true →
  as_vector query = Some q →
  length q = coll_dim c →
  1 <= top_k <= 16384 →
  ∃ rs w',
    search_similar_texts name query top_k w = (Ok rs, w') ∧
    (∀ r, r ∈ rs →
          ∃ doc, doc ∈ coll_rows c ∧
                 r = mkResultJson (doc_id doc) (doc_text doc)
                                  (Milvus.l2 q (doc_embedding doc))) ∧
    (∀ doc, doc ∈ coll_rows c →
            mkResultJson (doc_id doc) (doc_text doc) (Milvus.l2 q (doc_embedding doc)) ∈ rs ∨
            ∀ r, r ∈ rs →
                 Distance r < Milvus.l2 q (doc_embedding doc) ∨
                 (Distance r = Milvus.l2 q (doc_embedding doc) ∧ ID r <= doc_id doc)) ∧
    Z.of_nat (length rs) <= top_k ∧
    (Z.of_nat (length rs) < top_k → Z.of_nat (length (coll_rows c)) < top_k) ∧
    (∀ i j r1 r2,
       rs !! i = Some r1 → rs !! j = Some r2 → (i < j)%nat →
       Distance r1 <= Distance r2 ∧ (Distance r1 = Distance r2 → ID r1 <= ID r2)) ∧
    (∀ i j r1 r2,
       rs !! i = Some r1 → rs !! j = Some r2 → Distance r1 < Distance r2 →
       (i < j)%nat).
Proof.
  intros Hb Hc Hi Hq Hlen Hk.
  eexists _, _. split; [by apply (search_similar_texts_bound w d colls c) |].
  split; [| split; [| apply ranked_results; lia]].
  - intros r Hr. apply list_elem_of_fmap in Hr as (h & -> & Hh).
    apply ranked_elem in Hh as (doc & Hdoc & ->). by exists doc.
  - intros doc Hdoc.
    destruct (ranked_nearest q top_k (coll_rows c) doc Hdoc) as [Hin | Hall].
    + left. change (map ?f ?l) with (f <$> l).
      apply list_elem_of_fmap. by exists (Milvus.hit_of q doc).
    + right. intros r Hr. apply list_elem_of_fmap in Hr as (h & -> & Hh).
      exact (Hall h Hh).
Qed.

Lemma search_similar_texts_ranked_witness :
  ∃ rs w',
    search_similar_texts collection_name (PList [PNum 0; PNum 0]) 2 w_small = (Ok rs, w') ∧
    (∀ r, r ∈ rs →
          ∃ doc, doc ∈ coll_rows small_collection ∧
                 r = mkResultJson (doc_id doc) (doc_text doc)
                                  (Milvus.l2 [0; 0] (doc_embedding doc))) ∧
    (∀ doc, doc ∈ coll_rows small_collection →
            mkResultJson (doc_id doc) (doc_text doc) (Milvus.l2 [0; 0] (doc_embedding doc))
              ∈ rs ∨
            ∀ r, r ∈ rs →
                 Distance r < Milvus.l2 [0; 0] (doc_embedding doc) ∨
                 (Distance r = Milvus.l2 [0; 0] (doc_embedding doc) ∧ ID r <= doc_id doc)) ∧
    Z.of_nat (length rs) <= 2 ∧
    (Z.of_nat (length rs) < 2 → Z.of_nat (length (coll_rows small_collection)) < 2) ∧
    (∀ i j r1 r2,
       rs !! i = Some r1 → rs !! j = Some r2 → (i < j)%nat →
       Distance r1 <= Distance r2 ∧ (Distance r1 = Distance r2 → ID r1 <= ID r2)) ∧
    (∀ i j r1 r2,
       rs !! i = Some r1 → rs !! j = Some r2 → Distance r1 < Distance r2 →
       (i < j)%nat).
Proof.
  apply (search_similar_texts_ranked w_small database_name small_database small_collection
           collection_name (PList [PNum 0; PNum 0]) [0; 0] 2).
  - repeat split; reflexivity.
  - reflexivity.
  - reflexivity.
  - reflexivity.
  - reflexivity.
  - lia.
Defined.

(** X10. Round trip of insertion and search.  After a row has been inserted
    into a collection that has an index, a search for the vector of that row
    returns a first result at distance 0, which is the row just inserted or
    a row stored before it, with a smaller primary key, whose vector is at
    distance 0 from the query too. *)
Theorem insert_texts_then_search name text embedding v top_k w d colls c :
  bound_to w d colls →
  colls !! name = Some c →
  coll_indexed c = true →
  as_vector embedding = Some v →
  length v = coll_dim c →
  (String.length text <= coll_max_length c)%nat →
  1 <= top_k <= 16384 →
  ∃ w1 r rs w2,
    insert_texts name text embedding w = (Ok tt, w1) ∧
    search_similar_texts name embedding top_k w1 = (Ok (r :: rs), w2) ∧
    Distance r = 0 ∧
    (r = mkResultJson (next_id w) text 0 ∨
     ∃ doc, doc ∈ coll_rows c ∧ r = mkResultJson (doc_id doc) (doc_text doc) 0 ∧
            Milvus.l2 v (doc_embedding doc) = 0 ∧ doc_id doc <= next_id w).
Proof.
  intros Hb Hc Hi Hv Hlen Htext Hk.
  set (new := mkDocument (next_id w) text v).
  set (c1 := mkCollection (coll_dim c) (coll_max_length c) (coll_rows c ++ [new])
               (coll_indexed c) (coll_loaded c)).
  set (w1 := (Milvus.put d name c1 (set_next_id (next_id w + 1) w)).2).
  assert (bound_to w1 d (<[name := c1]> colls)) as Hb1
    by apply (put_bound (bound_to_set_next_id _ _ _ (next_id w + 1) Hb)).
  destruct (ranked_head v top_k (coll_rows c ++ [new]) new) as (h & hs & Hranked & Hh & Hle);
    [lia | apply elem_of_app; right; apply elem_of_cons; by left |].
  destruct Hh as (doc' & Hdoc' & ->).
  unfold Milvus.hit_le in Hle. cbn in Hle. rewrite l2_diag in Hle.
  pose proof (l2_nonneg v (doc_embedding doc')) as Hpos.
  assert (Milvus.l2 v (doc_embedding doc') = 0) as Hzero by lia.
  eexists w1, _, _, _.
  split; [by apply (insert_texts_run name text embedding v w d colls c) |].
  split.
  { rewrite (search_similar_texts_bound w1 d _ c1 name embedding v top_k Hb1
               (lookup_insert_eq _ _ _) Hi Hv Hlen Hk).
    cbn [coll_rows c1]. rewrite Hranked. reflexivity. }
  split; [exact Hzero |].
  cbn. rewrite Hzero.
  apply elem_of_app in Hdoc' as [Hold | Hnew].
  - right. exists doc'. split; [done |]. split; [done |]. split; [done | lia].
  - left. apply elem_of_cons in Hnew as [-> | Hnil]; [done | by apply elem_of_nil in Hnil].
Qed.

(** X11. [create_index] is idempotent: once it has succeeded, the
    collection has an index, a further call changes nothing, and no call
    changes the rows. *)
Theorem create_index_idempotent name w w1 :
  create_index name w = (Ok tt, w1) →
  create_index name w1 = (Ok tt, w1) ∧
  rows_of w1 name = rows_of w name ∧
  ∃ d colls c, bound_to w1 d colls ∧ colls !! name = Some c ∧ coll_indexed c = true.
Proof.
  intros Hrun.
  destruct (using_db_cases w) as [(d & colls & Hb) | (e & He)].
  2: { unfold create_index, bind, Milvus.indexes, bind, Milvus.resolve, bind in Hrun.
       by rewrite He in Hrun. }
  unfold create_index, bind at 1 in Hrun. unfold Milvus.indexes, bind at 1 in Hrun.
  rewrite (resolve_bound Hb) in Hrun.
  destruct (colls !! name) as [c |] eqn:Hc; [| done].
  cbn beta iota in Hrun. cbn [fst snd] in Hrun. unfold ret at 1 in Hrun.
  cbn beta iota in Hrun.
  assert (∀ w2 colls2 c2,
            bound_to w2 d colls2 → colls2 !! name = Some c2 → coll_indexed c2 = true →
            create_index name w2 = (Ok tt, w2)) as Hagain.
  { intros w2 colls2 c2 Hb2 Hc2 Hi2.
    unfold create_index, bind, Milvus.indexes, bind.
    rewrite (resolve_bound Hb2), Hc2. cbn. by rewrite Hi2. }
  destruct (coll_indexed c) eqn:Hi.
  - injection Hrun as <-. split; [by apply (Hagain w colls c) |].
    split; [done |]. by exists d, colls, c.
  - unfold Milvus.create_index, bind in Hrun. rewrite (resolve_bound Hb), Hc in Hrun.
    cbn beta iota in Hrun. cbn [fst snd] in Hrun.
    set (c1 := mkCollection _ _ _ true _) in Hrun.
    pose proof (put_bound Hb name c1) as Hb1.
    injection Hrun as <-.
    split; [by apply (Hagain _ _ c1 Hb1 (lookup_insert_eq _ _ _)) |].
    split.
    + etrans; [apply (rows_of_bound Hb1) |].
      by rewrite lookup_insert_eq, (rows_of_bound Hb), Hc.
    + eexists d, _, c1. split; [exact Hb1 |]. split; [apply lookup_insert_eq | done].
Qed.

(** ** Trimming and lower case *)

Lemma py_isspace_lower c : py_isspace (py_lower_char c) = py_isspace c.
Proof. by destruct c as [[] [] [] [] [] [] [] []]. Qed.

Lemma py_lower_char_idem c : py_lower_char (py_lower_char c) = py_lower_char c.
Proof. by destruct c as [[] [] [] [] [] [] [] []]. Qed.

Lemma py_lower_idem s : py_lower (py_lower s) = py_lower s.
Proof. induction s as [| c s IH]; simpl; [done |]. by rewrite py_lower_char_idem, IH. Qed.

Lemma py_lstrip_lower s : py_lstrip (py_lower s) = py_lower (py_lstrip s).
Proof.
  induction s as [| c s IH]; simpl; [done |].
  rewrite py_isspace_lower. by destruct (py_isspace c).
Qed.

Lemma py_rstrip_lower s : py_rstrip (py_lower s) = py_lower (py_rstrip s).
Proof.
  induction s as [| c s IH]; simpl; [done |].
  rewrite IH, py_isspace_lower.
  destruct (py_rstrip s); simpl; [by destruct (py_isspace c) | done].
Qed.

Lemma py_strip_lower s : py_strip (py_lower s) = py_lower (py_strip s).
Proof. unfold py_strip. by rewrite py_lstrip_lower, py_rstrip_lower. Qed.

Lemma py_rstrip_idem s : py_rstrip (py_rstrip s) = py_rstrip s.
Proof.
  induction s as [| c s IH]; simpl; [done |].
  destruct (py_rstrip s) as [| a r] eqn:Hr.
  - destruct (py_isspace c) eqn:Hc; simpl; [done | by rewrite Hc].
  - change (py_rstrip (String c (String a r)))
      with (match py_rstrip (String a r) with
            | EmptyString => if py_isspace c then EmptyString else String c EmptyString
            | r0 => String c r0
            end).
    by rewrite IH.
Qed.

(** A string that does not begin with white space is left alone by
    [py_lstrip], and [py_rstrip] keeps it so. *)
Lemma py_lstrip_rstrip_lstrip s :
  py_lstrip (py_rstrip (py_lstrip s)) = py_rstrip (py_lstrip s).
Proof.
  induction s as [| c s IH]; [done |].
  cbn [py_lstrip]. destruct (py_isspace c) eqn:Hc; [exact IH |].
  cbn [py_rstrip]. destruct (py_rstrip s); rewrite ?Hc; cbn [py_lstrip]; by rewrite Hc.
Qed.

Lemma py_strip_idem s : py_strip (py_strip s) = py_strip s.
Proof. unfold py_strip. by rewrite py_lstrip_rstrip_lstrip, py_rstrip_idem. Qed.

(** A text of ASCII characters stays one when it is trimmed and put in
    lower case. *)
Lemma py_isascii_lower s : py_isascii (py_lower s) = py_isascii s.
Proof.
  induction s as [| c s IH]; simpl; [done |]. rewrite IH. f_equal.
  by destruct c as [[] [] [] [] [] [] [] []].
Qed.

Lemma py_isascii_lstrip s : py_isascii s = true → py_isascii (py_lstrip s) = true.
Proof.
  induction s as [| c s IH]; simpl; [done |]. intros [Hc Hs]%andb_prop.
  destruct (py_isspace c); [by apply IH |]. simpl. by rewrite Hc, Hs.
Qed.

Lemma py_isascii_rstrip s : py_isascii s = true → py_isascii (py_rstrip s) = true.
Proof.
  induction s as [| c s IH]; simpl; [done |]. intros [Hc Hs]%andb_prop.
  specialize (IH Hs). destruct (py_rstrip s) as [| a r].
  - destruct (py_isspace c); simpl; [done | by rewrite Hc].
  - change (py_isascii (String c (String a r)))
      with ((nat_of_ascii c <? 128)%nat && py_isascii (String a r)).
    by rewrite Hc, IH.
Qed.

(** X12. For a message text of ASCII characters, on which [py_strip] and
    [py_lower] are Python's [strip] and [lower]: the transformed query is a
    text of ASCII characters again, the transformation is idempotent, and
    the message is searched exactly as its transformed text: the same
    request to the embedding API, the same results, the same world. *)
Theorem webhook_message_normal_form E collection text w :
  py_isascii text = true →
  py_isascii (py_lower (py_strip text)) = true ∧
  py_lower (py_strip (py_lower (py_strip text))) = py_lower (py_strip text) ∧
  webhook_message E collection (py_lower (py_strip text)) w
    = webhook_message E collection text w.
Proof.
  intros Hascii.
  assert (py_lower (py_strip (py_lower (py_strip text))) = py_lower (py_strip text)) as Hidem
    by by rewrite py_strip_lower, py_strip_idem, py_lower_idem.
  split; [| split; [done |]].
  - rewrite py_isascii_lower. unfold py_strip.
    by apply py_isascii_rstrip, py_isascii_lstrip.
  - unfold webhook_message. by rewrite Hidem.
Qed.

(** ** Preprocessing *)

Lemma concat_nonempty sep (l : list string) :
  Forall (fun x => x ≠ "") l → String.concat sep l = "" → l = [].
Proof.
  destruct l as [| x l]; [done |]. intros [Hx _]%Forall_cons.
  destruct x as [| c x]; [done |]. simpl. by destruct l.
Qed.

Lemma py_strip_empty : py_strip "" = "".
Proof. done. Qed.

(** X13. [preprocess_text] gives the empty text exactly when every token of
    the normalized text is blank or a comma. *)
Theorem preprocess_text_empty E text :
  preprocess_text E text = "" ↔
  Forall (fun token => py_strip token = "" ∨ token = ",")
         (word_tokenize E (normalize E text)).
Proof.
  unfold preprocess_text, py_join.
  set (tokens := word_tokenize E (normalize E text)).
  set (kept := filter (fun token => token ≠ ",") (filter (fun token => py_strip token ≠ "") tokens)).
  assert (Forall (fun x => x ≠ "") kept) as Hne.
  { apply Forall_forall. intros x Hx. unfold kept in Hx.
    apply list_elem_of_filter in Hx as [_ Hx]. apply list_elem_of_filter in Hx as [Hx _].
    by intros ->. }
  assert (kept = [] ↔ Forall (fun token => py_strip token = "" ∨ token = ",") tokens) as Hkept.
  { unfold kept. rewrite Forall_forall. split.
    - intros Hnil token Hin.
      destruct (decide (py_strip token = "")) as [| Hs]; [by left |].
      destruct (decide (token = ",")) as [| Hc]; [by right |].
      assert (token ∈ filter (fun token => token ≠ ",")
                        (filter (fun token => py_strip token ≠ "") tokens)) as Hmem
        by (apply list_elem_of_filter; split; [done |]; by apply list_elem_of_filter).
      rewrite Hnil in Hmem. by apply elem_of_nil in Hmem.
    - intros Hall. apply elem_of_nil_inv. intros token Hin.
      apply list_elem_of_filter in Hin as [Hc Hin]. apply list_elem_of_filter in Hin as [Hs Hin].
      destruct (Hall token Hin); done. }
  rewrite <- Hkept. split.
  - by apply concat_nonempty.
  - by intros ->.
Qed.

(** ** The message handler *)

Lemma hbind_run {A B} (c : H A) (k : A → H B) s :
  hbind c k s =
  match c s with
  | (HOk a, s') => k a s'
  | (HRaise e, s') => (HRaise e, s')
  end.
Proof. done. Qed.

Lemma get_chat_completion_response_run C user_question context s :
  get_chat_completion_response C user_question context s =
  (HOk (match read_chat_content (chat_completions C user_question context) with
        | Ok content => content
        | Raise _ => PNone
        end),
   mkSession (world s) (chat_requests s ++ [(user_question, context)]) (line_posts s)).
Proof.
  unfold get_chat_completion_response.
  destruct (read_chat_content _) as [v | e]; [done |]. by destruct e.
Qed.

(** What one reply does to the session. *)
Lemma send_line_reply_run C reply_token message s :
  ∃ r,
    send_line_reply C reply_token message s =
    (r, mkSession (world s) (chat_requests s) (line_posts s ++ [(reply_token, message)])) ∧
    (line_reply C reply_token message ≠ NoResponse → r = HOk tt).
Proof.
  unfold send_line_reply.
  destruct (line_reply C reply_token message); eexists; (split; [reflexivity | done]).
Qed.

(** The handling of a message event, from the search on. *)
Lemma webhook_event_message E C collection event text token s :
  is_message_event event text token →
  webhook_event E C collection event s =
  hbind (lift (webhook_message E collection text))
        (fun found =>
           if bool_decide (found.2 ≠ "") then
             hbind (get_chat_completion_response C (py_lower (py_strip text)) found.2)
                   (fun response =>
                      if py_truthy response
                      then send_line_reply C token response
                      else send_line_reply C token (PStr no_response_reply))
           else send_line_reply C token (PStr no_context_reply)) s.
Proof.
  intros (type & message & Htype & Hmsg & Hmessage & Htext & Htoken).
  unfold webhook_event. rewrite hbind_run, Htype. cbn [eval hret]. rewrite Hmsg.
  rewrite hbind_run, Hmessage. cbn [eval hret].
  rewrite hbind_run, Htext. cbn [eval hret].
  rewrite hbind_run, Htoken. cbn [eval hret]. done.
Qed.

Lemma webhook_event_other E C collection event s :
  is_other_event event → webhook_event E C collection event s = (HOk tt, s).
Proof.
  intros (type & Htype & Hother).
  unfold webhook_event. rewrite hbind_run, Htype. cbn [eval hret]. by rewrite Hother.
Qed.

Lemma hfor_each_other E C collection events s :
  Forall is_other_event events →
  hfor_each events (webhook_event E C collection) s = (HOk tt, s).
Proof.
  induction 1 as [| event events Hother _ IH]; [done |].
  cbn [hfor_each]. by rewrite hbind_run, webhook_event_other.
Qed.

(** X14. [get_chat_completion_response] never raises.  It returns [None]
    when the service gives no answer, answers with an error status, answers
    with a body that is not JSON, or with one that has no
    [choices[0].message.content]; otherwise it returns that field. *)
Theorem get_chat_completion_response_returns C user_question context s :
  ∃ v,
    get_chat_completion_response C user_question context s =
      (HOk v, mkSession (world s) (chat_requests s ++ [(user_question, context)])
                        (line_posts s)) ∧
    (chat_completions C user_question context = NoResponse → v = PNone) ∧
    (∀ status body,
       chat_completions C user_question context = Response status body →
       400 <= status < 600 → v = PNone) ∧
    (∀ status,
       chat_completions C user_question context = Response status None → v = PNone) ∧
    (∀ e, read_chat_content (chat_completions C user_question context) = Raise e →
          v = PNone) ∧
    (∀ status result choices first message content,
       chat_completions C user_question context = Response status (Some result) →
       ¬ (400 <= status < 600) →
       getitem_str result "choices" = Ok choices →
       getitem_0 choices = Ok first →
       getitem_str first "message" = Ok message →
       getitem_str message "content" = Ok content →
       v = content).
Proof.
  eexists. split; [apply get_chat_completion_response_run |].
  destruct (chat_completions C user_question context) as [| status body]; simpl.
  { repeat split; done. }
  assert (((400 <=? status) && (status <? 600)) = true ↔ 400 <= status < 600) as Herr
    by (rewrite andb_true_iff, Z.leb_le, Z.ltb_lt; done).
  split; [done |].
  destruct ((400 <=? status) && (status <? 600)) eqn:Hst.
  { repeat split; try done.
    intros st result choices first message content [= -> ->] Hnot.
    destruct Hnot. by apply Herr. }
  split.
  { intros st b [= -> ->] Hrange. apply Herr in Hrange. done. }
  destruct body as [result |]; [| repeat split; done].
  split; [done |]. split.
  - by intros e ->.
  - intros st r choices first message content [= -> ->] _ -> -> -> ->. done.
Qed.

(** X15. A request without events, or whose events are all of another type
    than "message", changes nothing: no request to the embedding API or to
    the chat completion API, no search, no reply; the answer is the success
    answer. *)
Theorem webhook_nothing_to_do E C collection d s :
  dict_get d "events" = None ∨
  (∃ events, dict_get d "events" = Some (PList events) ∧ Forall is_other_event events) →
  webhook E C collection (PDict d) s = (HOk (PDict [("status", PStr "success")], 200), s).
Proof.
  intros [Hnone | (events & Hsome & Hother)]; unfold webhook; rewrite hbind_run; cbn.
  - rewrite Hnone. rewrite bool_decide_eq_false_2 by (by intros [? ?]). done.
  - rewrite Hsome. rewrite bool_decide_eq_true_2 by eauto.
    rewrite ?hbind_run. cbn. rewrite ?Hsome. cbn.
    by rewrite (hfor_each_other E C collection events s Hother).
Qed.

(** The retrieval for a message, when the store and the embedding API
    answer. *)
Lemma webhook_message_bound E collection text w d colls c embedding v :
  bound_to w d colls →
  colls !! collection = Some c →
  coll_indexed c = true →
  read_embedding (openai_embeddings E (py_lower (py_strip text)) (OPENAI_EMBEDDING_MODEL E))
    = Ok embedding →
  as_vector embedding = Some v →
  length v = coll_dim c →
  ∃ w',
    webhook_message E collection text w =
    (Ok (map (fun h => mkResultJson (Milvus.hit_id h) (Milvus.hit_text h) (Milvus.hit_distance h))
             (Milvus.ranked v 4 (coll_rows c)),
         py_join (String (ascii_of_nat 10) "")
           (map Text
              (map (fun h => mkResultJson (Milvus.hit_id h) (Milvus.hit_text h)
                                          (Milvus.hit_distance h))
                   (Milvus.ranked v 4 (coll_rows c))))),
     w').
Proof.
  intros Hb Hc Hi Hread Hv Hlen. unfold webhook_message.
  rewrite bind_run, generate_embeddings_openai_run, Hread.
  rewrite bind_run.
  rewrite (search_similar_texts_bound _ d colls c collection embedding v 4
             (bound_to_log_request _ _ _ _ Hb) Hc Hi Hv Hlen) by lia.
  eexists. reflexivity.
Qed.

(** X16. A message event on a collection without rows: the user is told
    that no context was found, and the chat completion API is not called. *)
Theorem webhook_event_empty_collection
    E C collection event text token s d colls c embedding v :
  is_message_event event text token →
  bound_to (world s) d colls →
  colls !! collection = Some c →
  coll_indexed c = true →
  coll_rows c = [] →
  read_embedding (openai_embeddings E (py_lower (py_strip text)) (OPENAI_EMBEDDING_MODEL E))
    = Ok embedding →
  as_vector embedding = Some v →
  length v = coll_dim c →
  ∃ r s',
    webhook_event E C collection event s = (r, s') ∧
    line_posts s' = line_posts s ++ [(token, PStr no_context_reply)] ∧
    chat_requests s' = chat_requests s ∧
    (line_reply C token (PStr no_context_reply) ≠ NoResponse → r = HOk tt).
Proof.
  intros Hev Hb Hc Hi Hrows Hread Hv Hlen.
  rewrite (webhook_event_message E C collection event text token s Hev).
  destruct (webhook_message_bound E collection text (world s) d colls c embedding v
              Hb Hc Hi Hread Hv Hlen) as (w' & Hrun).
  rewrite Hrows in Hrun. change (Milvus.ranked v 4 []) with (@nil Milvus.Hit) in Hrun.
  cbn in Hrun.
  rewrite hbind_run. unfold lift. rewrite Hrun. cbn.
  destruct (send_line_reply_run C token (PStr no_context_reply)
              (mkSession w' (chat_requests s) (line_posts s))) as (r & Hsend & Hok).
  exists r. eexists. split; [exact Hsend |]. split; [done |]. split; [done | exact Hok].
Qed.

(** X17. A message event for which the embedding call fails: the handler
    raises the exception of the store, and the user is sent no reply at
    all. *)
Theorem webhook_event_embedding_failure E C collection event text token s :
  is_message_event event text token →
  embedding_fails E (py_lower (py_strip text)) →
  ∃ e s',
    webhook_event E C collection event s = (HRaise (Raised (MilvusException e)), s') ∧
    line_posts s' = line_posts s ∧
    chat_requests s' = chat_requests s.
Proof.
  intros Hev (e0 & Hfail).
  rewrite (webhook_event_message E C collection event text token s Hev).
  rewrite hbind_run. unfold lift, webhook_message.
  rewrite bind_run, generate_embeddings_openai_run, Hfail, bind_run.
  destruct (search_similar_texts_no_vector collection PNone 4
              (log_request (py_lower (py_strip text), OPENAI_EMBEDDING_MODEL E) (world s))
              eq_refl) as (e & w' & ->).
  by exists e, (mkSession w' (chat_requests s) (line_posts s)).
Qed.

(** X18. A message event without a text (a sticker, an image) makes the
    handler raise [KeyError]; the events that follow it in the request are
    not handled. *)
Theorem webhook_message_without_text E C collection d pre event post type message s :
  dict_get d "events" = Some (PList (pre ++ event :: post)) →
  Forall is_other_event pre →
  getitem_str event "type" = Ok type →
  py_eq_str type "message" = true →
  getitem_str event "message" = Ok message →
  getitem_str message "text" = Raise KeyError →
  webhook E C collection (PDict d) s = (HRaise (Raised KeyError), s).
Proof.
  intros Hevents Hpre Htype Hmsg Hmessage Htext.
  assert (webhook_event E C collection event s = (HRaise (Raised KeyError), s)) as Hev.
  { unfold webhook_event. rewrite hbind_run, Htype. cbn [eval hret]. rewrite Hmsg.
    rewrite hbind_run, Hmessage. cbn [eval hret].
    by rewrite hbind_run, Htext. }
  assert (hfor_each (pre ++ event :: post) (webhook_event E C collection) s
          = (HRaise (Raised KeyError), s)) as Hloop.
  { clear Hevents. induction Hpre as [| x pre Hx _ IH]; cbn [app hfor_each].
    - by rewrite hbind_run, Hev.
    - rewrite hbind_run, (webhook_event_other E C collection x s Hx). exact IH. }
  unfold webhook. rewrite hbind_run. cbn. rewrite Hevents.
  rewrite bool_decide_eq_true_2 by eauto.
  rewrite ?hbind_run. cbn. rewrite ?Hevents. cbn. by rewrite Hloop.
Qed.

(** X19. A message event for which the search gives a context: the chat
    completion API is asked once, with the transformed text and the context,
    and exactly one reply is posted, to the reply token of the event: the
    content the chat completion API returned, or, when the call failed or
    the content is empty, the apology. *)
Theorem webhook_event_with_context E C collection event text token s found context w' :
  is_message_event event text token →
  webhook_message E collection text (world s) = (Ok (found, context), w') →
  context ≠ "" →
  ∃ r s',
    webhook_event E C collection event s = (r, s') ∧
    world s' = w' ∧
    chat_requests s' = chat_requests s ++ [(py_lower (py_strip text), context)] ∧
    line_posts s' =
      line_posts s ++
      [(token,
        match read_chat_content (chat_completions C (py_lower (py_strip text)) context) with
        | Ok content => if py_truthy content then content else PStr no_response_reply
        | Raise _ => PStr no_response_reply
        end)] ∧
    ((∀ message, line_reply C token message ≠ NoResponse) → r = HOk tt).
Proof.
  intros Hev Hrun Hctx.
  rewrite (webhook_event_message E C collection event text token s Hev).
  rewrite hbind_run. unfold lift. rewrite Hrun. cbn [snd].
  rewrite bool_decide_eq_true_2 by done.
  rewrite hbind_run, get_chat_completion_response_run.
  destruct (read_chat_content _) as [content | e];
    [destruct (py_truthy content) |];
    cbn [py_truthy];
    match goal with
    | |- context [send_line_reply C token ?m ?s1] =>
        destruct (send_line_reply_run C token m s1) as (r & Hsend & Hok)
    end;
    exists r; eexists; (split; [exact Hsend |]); repeat split;
    intros HC; apply Hok, HC.
Qed.

(** An event handled without an exception: one reply when it is a message
    event, to its reply token, and none otherwise. *)
Lemma webhook_event_posts E C collection event s s' :
  webhook_event E C collection event s = (HOk tt, s') →
  map fst (line_posts s') = map fst (line_posts s) ++ message_tokens event.
Proof.
  unfold webhook_event, message_tokens. rewrite hbind_run.
  destruct (getitem_str event "type") as [type |]; cbn [eval hret hraise]; [| done].
  destruct (py_eq_str type "message").
  2: { intros [= <-]. by rewrite app_nil_r. }
  rewrite hbind_run.
  destruct (getitem_str event "message") as [message |]; cbn [eval hret hraise]; [| done].
  rewrite hbind_run.
  destruct (getitem_str message "text") as [text |]; cbn [eval hret hraise]; [| done].
  destruct text as [| | | text | |]; try done.
  rewrite hbind_run.
  destruct (getitem_str event "replyToken") as [token |]; cbn [eval hret hraise]; [| done].
  rewrite hbind_run. unfold lift.
  destruct (webhook_message E collection text (world s)) as [[found | e] w']; [| done].
  assert (∀ m s1 r s2,
            send_line_reply C token m s1 = (r, s2) →
            map fst (line_posts s2) = map fst (line_posts s1) ++ [token]) as Hsend.
  { intros m s1 r s2 Hrun.
    destruct (send_line_reply_run C token m s1) as (r' & Hrun' & _).
    rewrite Hrun' in Hrun. injection Hrun as _ <-. cbn. by rewrite map_app. }
  destruct (bool_decide (found.2 ≠ "")).
  - rewrite hbind_run, get_chat_completion_response_run.
    destruct (py_truthy _); intros Hrun; by apply Hsend in Hrun.
  - intros Hrun. by apply Hsend in Hrun.
Qed.

(** X20. When the handler returns, every message event of the request has
    been sent exactly one reply, and nothing else was posted: the reply
    tokens of the posts are those of the message events, in the order of the
    request. *)
Theorem webhook_replies_in_order E C collection d events s r s' :
  dict_get d "events" = Some (PList events) →
  webhook E C collection (PDict d) s = (HOk r, s') →
  map fst (line_posts s') = map fst (line_posts s) ++ concat (map message_tokens events).
Proof.
  intros Hevents Hrun.
  assert (∃ s1, hfor_each events (webhook_event E C collection) s = (HOk tt, s1) ∧ s' = s1)
    as (s1 & Hloop & ->).
  { unfold webhook in Hrun. rewrite hbind_run in Hrun. cbn in Hrun. rewrite Hevents in Hrun.
    rewrite bool_decide_eq_true_2 in Hrun by eauto.
    rewrite ?hbind_run in Hrun. cbn in Hrun. rewrite ?Hevents in Hrun. cbn in Hrun.
    destruct (hfor_each events (webhook_event E C collection) s) as [[[] | e] s1];
      [| done].
    injection Hrun as _ <-. by exists s1. }
  clear Hrun Hevents. revert s Hloop.
  induction events as [| event events IH]; intros s Hloop.
  - injection Hloop as <-. by rewrite app_nil_r.
  - cbn [hfor_each] in Hloop. rewrite hbind_run in Hloop.
    destruct (webhook_event E C collection event s) as [[[] | e] s2] eqn:Hev; [| done].
    apply webhook_event_posts in Hev. apply IH in Hloop.
    rewrite Hloop, Hev. cbn. by rewrite <- app_assoc.
Qed.

(** ** The properties, with the names they are recorded under *)

Lemma E_demo_embeddable : Forall (embeddable E_demo) (initial_texts E_demo).
Proof.
  repeat constructor.
  - exists (PList (repeat (PNum 2) 3072)), (repeat 2 3072).
    split; [by vm_compute |]. split; [by vm_compute |]. split; [by vm_compute |].
    vm_compute. lia.
  - exists (PList (repeat (PNum 3) 3072)), (repeat 3 3072).
    split; [by vm_compute |]. split; [by vm_compute |]. split; [by vm_compute |].
    vm_compute. lia.
Qed.

(** X1. [remove_existing_database] on a reachable server: the database
    [database_name] exists and is empty afterwards, whatever it held, and no
    other database is touched.  The connection ends bound to
    [database_name] when that database existed before the call, and to
    "default" when the call created it. *)
Theorem remove_existing_database_result w colls0 :
  reachable w = true →
  databases w !! "default" = Some colls0 →
  ∃ w',
    remove_existing_database w = (Ok tt, w') ∧
    databases w' !! database_name = Some ∅ ∧
    (∀ name, name ≠ database_name → databases w' !! name = databases w !! name) ∧
    conn_db w' =
      Some (if decide (is_Some (databases w !! database_name))
            then database_name else "default") ∧
    next_id w' = next_id w ∧
    embedding_requests w' = embedding_requests w.
Proof.
  intros Hr H0.
  destruct (remove_existing_database_run w colls0 Hr H0)
    as (w' & Hrun & Hdbs & Hconn & _ & Hid & Hreq).
  exists w'. split; [exact Hrun |]. split.
  { rewrite Hdbs. apply lookup_insert_eq. }
  split.
  { intros name Hne. rewrite Hdbs. by apply lookup_insert_ne. }
  split; [exact Hconn |]. split; [exact Hid | exact Hreq].
Qed.

Lemma remove_existing_database_result_witness :
  ∃ w',
    remove_existing_database w_small = (Ok tt, w') ∧
    databases w' !! database_name = Some ∅ ∧
    conn_db w' = Some database_name.
Proof.
  destruct (remove_existing_database_result w_small ∅) as (w' & Hrun & Hdb & _ & Hconn & _).
  - reflexivity.
  - reflexivity.
  - exists w'. split; [exact Hrun |]. split; [exact Hdb | exact Hconn].
Defined.

(** X2. Ingestion into a database that has no collection yet, with a
    corpus whose texts can all be embedded and stored: [setup_collection]
    creates the collection with the dimension of the configured model, stores
    one row per text in the order of the corpus (the preprocessed text with
    the vector answered to the text as it is in the corpus), builds the
    index, touches nothing else in the store, and has sent exactly the texts
    of the corpus, in order, to the embedding API. *)
Theorem setup_collection_ingests_corpus E w d colls :
  bound_to w d colls →
  colls !! collection_name = None →
  Forall (embeddable E) (initial_texts E) →
  ∃ w' docs,
    setup_collection E w = (Ok collection_name, w') ∧
    bound_to w' d (<[collection_name := corpus_collection E docs]> colls) ∧
    (∀ name, name ≠ d → databases w' !! name = databases w !! name) ∧
    rows_of w' collection_name = docs ∧
    Forall2 (stored_as E) (initial_texts E) docs ∧
    embedding_requests w' = embedding_requests w ++ corpus_requests E.
Proof.
  intros Hb Hc Hall.
  destruct (setup_collection_run E w d colls Hb Hc Hall)
    as (w' & docs & Hrun & Hr & Hconn & Hdbs & Hdocs & Hreq).
  assert (bound_to w' d (<[collection_name := corpus_collection E docs]> colls)) as Hb'.
  { split; [exact Hr |]. split; [exact Hconn |]. rewrite Hdbs. apply lookup_insert_eq. }
  exists w', docs. split; [exact Hrun |]. split; [exact Hb' |]. split.
  { intros name Hne. rewrite Hdbs. by apply lookup_insert_ne. }
  split; [by rewrite (rows_of_bound Hb'), lookup_insert_eq |].
  split; [exact Hdocs | exact Hreq].
Qed.

Lemma setup_collection_ingests_corpus_witness :
  ∃ w' docs,
    setup_collection E_demo w_connected = (Ok collection_name, w') ∧
    Forall2 (stored_as E_demo) ["ab"; "c,d"] docs.
Proof.
  destruct (setup_collection_ingests_corpus E_demo w_connected "default" ∅)
    as (w' & docs & Hrun & _ & _ & _ & Hdocs & _).
  - repeat split; reflexivity.
  - reflexivity.
  - exact E_demo_embeddable.
  - exists w', docs. split; [exact Hrun | exact Hdocs].
Defined.

(** X3. [reset_database] on a reachable server that has the databases
    "default" and [database_name], with a corpus whose texts can all be
    embedded and stored ([embeddable]: the embedding API answers the text
    with a vector of the dimension of the configured model, and the
    preprocessed text has at most 1000 bytes): whatever the database held,
    it ends with the one collection, holding one row per text of the corpus
    in order, with an index; no other database is touched, and the corpus is
    sent once to the embedding API. *)
Theorem reset_database_rebuilds E w colls0 colls :
  reachable w = true →
  databases w !! "default" = Some colls0 →
  databases w !! database_name = Some colls →
  Forall (embeddable E) (initial_texts E) →
  ∃ w' docs,
    reset_database E w = (Ok collection_name, w') ∧
    conn_db w' = Some database_name ∧
    databases w' =
      <[database_name := {[ collection_name := corpus_collection E docs ]}]> (databases w) ∧
    Forall2 (stored_as E) (initial_texts E) docs ∧
    embedding_requests w' = embedding_requests w ++ corpus_requests E.
Proof.
  intros Hr H0 Hdb Hall.
  destruct (reset_database_run E w colls0 Hr H0) as (w' & docs & Hrun & _ & Hcase & Hdocs & Hreq);
    [by rewrite Hdb | done |].
  rewrite decide_True in Hcase by eauto. destruct Hcase as [Hconn Hdbs].
  by exists w', docs.
Qed.

Lemma reset_database_rebuilds_witness :
  ∃ w' docs,
    reset_database E_demo w_small = (Ok collection_name, w') ∧
    conn_db w' = Some database_name ∧
    Forall2 (stored_as E_demo) ["ab"; "c,d"] docs.
Proof.
  destruct (reset_database_rebuilds E_demo w_small ∅ small_database)
    as (w' & docs & Hrun & Hconn & _ & Hdocs & _).
  - reflexivity.
  - reflexivity.
  - reflexivity.
  - exact E_demo_embeddable.
  - exists w', docs. split; [exact Hrun |]. split; [exact Hconn | exact Hdocs].
Defined.

(** X4. [initialize_database] when the database and the collection exist:
    the collection is returned as it is, whatever it holds and whether or
    not it has an index; nothing is sent to the embedding API and nothing in
    the store changes, only the connection is bound to the database. *)
Theorem initialize_database_keeps_existing E w colls0 colls c :
  reachable w = true →
  databases w !! "default" = Some colls0 →
  databases w !! database_name = Some colls →
  colls !! collection_name = Some c →
  ∃ w',
    initialize_database E w = (Ok collection_name, w') ∧
    conn_db w' = Some database_name ∧
    databases w' = databases w ∧
    rows_of w' collection_name = coll_rows c ∧
    next_id w' = next_id w ∧
    embedding_requests w' = embedding_requests w.
Proof.
  intros Hr H0 Hdb Hc.
  exists (set_conn_db (Some database_name) w).
  split; [by apply (initialize_database_existing_run E w colls0 colls c) |].
  split; [done |]. split; [done |]. split; [| done].
  unfold rows_of. cbn. by rewrite Hdb, Hc.
Qed.

Lemma initialize_database_keeps_existing_witness :
  ∃ w',
    initialize_database E_demo w_small = (Ok collection_name, w') ∧
    conn_db w' = Some database_name ∧
    databases w' = databases w_small ∧
    rows_of w' collection_name = coll_rows small_collection ∧
    next_id w' = next_id w_small ∧
    embedding_requests w' = embedding_requests w_small.
Proof.
  apply (initialize_database_keeps_existing E_demo w_small ∅ small_database small_collection);
    reflexivity.
Defined.

(** X5. [initialize_database] on a reachable server that has the databases
    "default" and [database_name], the latter without the collection, with
    a corpus whose texts can all be embedded and stored ([embeddable]): the
    corpus is ingested into that database, as by [setup_collection]: the
    collection is created there with one row per text of the corpus in
    order, the other collections and databases are untouched, and the corpus
    is sent once to the embedding API. *)
Theorem initialize_database_ingests E w colls0 colls :
  reachable w = true →
  databases w !! "default" = Some colls0 →
  databases w !! database_name = Some colls →
  colls !! collection_name = None →
  Forall (embeddable E) (initial_texts E) →
  ∃ w' docs,
    initialize_database E w = (Ok collection_name, w') ∧
    conn_db w' = Some database_name ∧
    databases w' =
      <[database_name := <[collection_name := corpus_collection E docs]> colls]>
        (databases w) ∧
    Forall2 (stored_as E) (initial_texts E) docs ∧
    embedding_requests w' = embedding_requests w ++ corpus_requests E.
Proof.
  intros Hr H0 Hdb Hc Hall.
  rewrite (initialize_database_empty_run E w colls0 colls Hr H0 Hdb Hc).
  destruct (setup_collection_run E (set_conn_db (Some database_name) w) database_name colls)
    as (w' & docs & Hrun & _ & Hconn & Hdbs & Hdocs & Hreq); [done | done | done |].
  by exists w', docs.
Qed.

Lemma initialize_database_ingests_witness :
  ∃ w' docs,
    initialize_database E_demo w_blank = (Ok collection_name, w') ∧
    conn_db w' = Some database_name ∧
    Forall2 (stored_as E_demo) ["ab"; "c,d"] docs.
Proof.
  destruct (initialize_database_ingests E_demo w_blank ∅ ∅)
    as (w' & docs & Hrun & Hconn & _ & Hdocs & _).
  - reflexivity.
  - reflexivity.
  - reflexivity.
  - reflexivity.
  - exact E_demo_embeddable.
  - exists w', docs. split; [exact Hrun |]. split; [exact Hconn | exact Hdocs].
Defined.

Lemma initialize_database_absent_is_reset_witness :
  initialize_database E_demo w_new = reset_database E_demo w_new.
Proof.
  apply (initialize_database_absent_is_reset E_demo w_new ∅); reflexivity.
Defined.

Lemma main_ingests_once_witness :
  ∃ w',
    main E_demo w_small = (Ok collection_name, w') ∧
    embedding_requests w' = [] ++ corpus_requests E_demo.
Proof.
  destruct (main_ingests_once E_demo w_small ∅ small_database)
    as (w' & docs & Hrun & _ & _ & _ & Hreq).
  - reflexivity.
  - reflexivity.
  - reflexivity.
  - exact E_demo_embeddable.
  - exists w'. split; [exact Hrun | exact Hreq].
Defined.

Lemma main_new_server_ingests_twice_witness :
  ∃ w',
    main E_demo w_new = (Ok collection_name, w') ∧
    embedding_requests w' = [] ++ corpus_requests E_demo ++ corpus_requests E_demo.
Proof.
  destruct (main_new_server_ingests_twice E_demo w_new ∅)
    as (w' & docs0 & docs & Hrun & _ & _ & _ & _ & Hreq).
  - reflexivity.
  - reflexivity.
  - reflexivity.
  - reflexivity.
  - exact E_demo_embeddable.
  - exists w'. split; [exact Hrun | exact Hreq].
Defined.

(** ** Examples of the further properties *)

Lemma search_similar_texts_returns_rows_witness :
  (∃ q, as_vector (PList [PNum 0; PNum 0]) = Some q ∧
        ∀ r, r ∈ [mkResultJson 2 "b" 1; mkResultJson 3 "c" 1] →
             ∃ doc, doc ∈ rows_of w_small collection_name ∧
                    ID r = doc_id doc ∧ Text r = doc_text doc ∧
                    Distance r = Milvus.l2 q (doc_embedding doc)) ∧
  (NoDup (doc_id <$> rows_of w_small collection_name) →
   NoDup (ID <$> [mkResultJson 2 "b" 1; mkResultJson 3 "c" 1])) ∧
  rows_of (search_similar_texts collection_name (PList [PNum 0; PNum 0]) 2 w_small).2
          collection_name
    = rows_of w_small collection_name ∧
  embedding_requests (search_similar_texts collection_name (PList [PNum 0; PNum 0]) 2 w_small).2
    = embedding_requests w_small.
Proof.
  apply (search_similar_texts_returns_rows collection_name (PList [PNum 0; PNum 0]) 2 w_small).
  reflexivity.
Defined.

Lemma insert_texts_then_search_witness :
  ∃ w1 r rs w2,
    insert_texts collection_name "x" (PList [PNum 0; PNum 1]) w_small = (Ok tt, w1) ∧
    search_similar_texts collection_name (PList [PNum 0; PNum 1]) 1 w1 = (Ok (r :: rs), w2) ∧
    Distance r = 0 ∧
    (r = mkResultJson (next_id w_small) "x" 0 ∨
     ∃ doc, doc ∈ coll_rows small_collection ∧
            r = mkResultJson (doc_id doc) (doc_text doc) 0 ∧
            Milvus.l2 [0; 1] (doc_embedding doc) = 0 ∧ doc_id doc <= next_id w_small).
Proof.
  apply (insert_texts_then_search collection_name "x" (PList [PNum 0; PNum 1]) [0; 1] 1
           w_small database_name small_database small_collection).
  - repeat split; reflexivity.
  - reflexivity.
  - reflexivity.
  - reflexivity.
  - reflexivity.
  - simpl. lia.
  - lia.
Defined.

Lemma create_index_idempotent_witness :
  create_index collection_name
      (create_index collection_name (create_collection "text-embedding-3-large" w_connected).2).2
    = (Ok tt,
       (create_index collection_name
          (create_collection "text-embedding-3-large" w_connected).2).2) ∧
  rows_of (create_index collection_name
             (create_collection "text-embedding-3-large" w_connected).2).2 collection_name
    = rows_of (create_collection "text-embedding-3-large" w_connected).2 collection_name ∧
  ∃ d colls c,
    bound_to (create_index collection_name
                (create_collection "text-embedding-3-large" w_connected).2).2 d colls ∧
    colls !! collection_name = Some c ∧ coll_indexed c = true.
Proof.
  apply (create_index_idempotent collection_name
           (create_collection "text-embedding-3-large" w_connected).2).
  reflexivity.
Defined.

Lemma webhook_message_normal_form_witness :
  py_isascii (py_lower (py_strip "  Hello World ")) = true ∧
  py_lower (py_strip (py_lower (py_strip "  Hello World ")))
    = py_lower (py_strip "  Hello World ") ∧
  webhook_message E_demo collection_name (py_lower (py_strip "  Hello World ")) w_started
    = webhook_message E_demo collection_name "  Hello World " w_started.
Proof.
  apply (webhook_message_normal_form E_demo collection_name "  Hello World " w_started).
  reflexivity.
Defined.

Lemma webhook_nothing_to_do_witness :
  webhook E_demo C_demo collection_name
          (PDict [("destination", PStr "U1"); ("events", PList [follow_event "t0"])])
          (mkSession w_small [] [])
    = (HOk (PDict [("status", PStr "success")], 200), mkSession w_small [] []).
Proof.
  apply (webhook_nothing_to_do E_demo C_demo collection_name
           [("destination", PStr "U1"); ("events", PList [follow_event "t0"])]).
  right. exists [follow_event "t0"]. split; [reflexivity |].
  constructor; [| constructor]. exists (PStr "follow"). split; reflexivity.
Defined.

Lemma webhook_event_empty_collection_witness :
  ∃ r s',
    webhook_event E_demo C_demo collection_name (text_event " Hi " "t1")
                  (mkSession w_empty [] []) = (r, s') ∧
    line_posts s' = [] ++ [(PStr "t1", PStr no_context_reply)] ∧
    chat_requests s' = [] ∧
    (line_reply C_demo (PStr "t1") (PStr no_context_reply) ≠ NoResponse → r = HOk tt).
Proof.
  apply (webhook_event_empty_collection E_demo C_demo collection_name
           (text_event " Hi " "t1") " Hi " (PStr "t1") (mkSession w_empty [] [])
           database_name {[ collection_name := mkCollection 3072 1000 [] true false ]}
           (mkCollection 3072 1000 [] true false)
           (PList (repeat (PNum 2) 3072)) (repeat 2 3072)).
  - exists (PStr "message"), (PDict [("type", PStr "text"); ("text", PStr " Hi ")]).
    repeat split; reflexivity.
  - repeat split; reflexivity.
  - reflexivity.
  - reflexivity.
  - reflexivity.
  - by vm_compute.
  - by vm_compute.
  - by vm_compute.
Defined.

Lemma webhook_event_embedding_failure_witness :
  ∃ e s',
    webhook_event E_demo C_demo collection_name (text_event "Down" "t1")
                  (mkSession w_empty [] [])
      = (HRaise (Raised (MilvusException e)), s') ∧
    line_posts s' = [] ∧
    chat_requests s' = [].
Proof.
  apply (webhook_event_embedding_failure E_demo C_demo collection_name
           (text_event "Down" "t1") "Down" (PStr "t1") (mkSession w_empty [] [])).
  - exists (PStr "message"), (PDict [("type", PStr "text"); ("text", PStr "Down")]).
    repeat split; reflexivity.
  - exists RequestException. reflexivity.
Defined.

Lemma webhook_message_without_text_witness :
  webhook E_demo C_demo collection_name
          (PDict [("events",
                   PList ([follow_event "t0"] ++ sticker_event "t1" :: [text_event "x" "t2"]))])
          (mkSession w_empty [] [])
    = (HRaise (Raised KeyError), mkSession w_empty [] []).
Proof.
  apply (webhook_message_without_text E_demo C_demo collection_name
           [("events",
             PList ([follow_event "t0"] ++ sticker_event "t1" :: [text_event "x" "t2"]))]
           [follow_event "t0"] (sticker_event "t1") [text_event "x" "t2"]
           (PStr "message") (PDict [("type", PStr "sticker")])).
  - reflexivity.
  - constructor; [| constructor]. exists (PStr "follow"). split; reflexivity.
  - reflexivity.
  - reflexivity.
  - reflexivity.
  - reflexivity.
Defined.

Lemma webhook_event_with_context_witness :
  ∃ r s',
    webhook_event E_demo C_demo collection_name (text_event "ab" "t1")
                  (mkSession w_started [] []) = (r, s') ∧
    world s' = (webhook_message E_demo collection_name "ab" w_started).2 ∧
    chat_requests s' = [] ++ [(py_lower (py_strip "ab"), found_ab.2)] ∧
    line_posts s' =
      [] ++
      [(PStr "t1",
        match read_chat_content (chat_completions C_demo (py_lower (py_strip "ab")) found_ab.2) with
        | Ok content => if py_truthy content then content else PStr no_response_reply
        | Raise _ => PStr no_response_reply
        end)] ∧
    ((∀ message, line_reply C_demo (PStr "t1") message ≠ NoResponse) → r = HOk tt).
Proof.
  apply (webhook_event_with_context E_demo C_demo collection_name (text_event "ab" "t1") "ab"
           (PStr "t1") (mkSession w_started [] []) found_ab.1 found_ab.2).
  - exists (PStr "message"), (PDict [("type", PStr "text"); ("text", PStr "ab")]).
    repeat split; reflexivity.
  - by vm_compute.
  - by vm_compute.
Defined.

Lemma webhook_replies_in_order_witness :
  map fst (line_posts
             (webhook E_demo C_demo collection_name
                (PDict [("events",
                         PList [text_event " Hi " "t1"; follow_event "t2"; text_event "x" "t3"])])
                (mkSession w_empty [] [])).2)
    = [] ++ concat (map message_tokens
                        [text_event " Hi " "t1"; follow_event "t2"; text_event "x" "t3"]).
Proof.
  apply (webhook_replies_in_order E_demo C_demo collection_name
           [("events", PList [text_event " Hi " "t1"; follow_event "t2"; text_event "x" "t3"])]
           [text_event " Hi " "t1"; follow_event "t2"; text_event "x" "t3"]
           (mkSession w_empty [] [])
           (PDict [("status", PStr "success")], 200)).
  - reflexivity.
  - by vm_compute.
Defined.
